(** * biokit-builder: the Repository Understanding Engine

    A shallow embedding of the analysis pipeline (classifier, quality
    metrics, requirements extractor, gap detector, recommender) and of the
    context pipeline (relevance scoring, token budgeting, dependency
    expansion), with the properties the specification states about them. *)

From Stdlib Require Import ZArith List String Ascii Bool Lia SpecFloat.
From stdpp Require Import base option list gmap strings sorting.

Local Open Scope list_scope.

(** ** JavaScript string primitives used by the analyzers *)

Module Js.

(** [String.prototype.toLowerCase], on the ASCII range. *)
Definition lower_ascii (c : ascii) : ascii :=
  let n := nat_of_ascii c in
  if (65 <=? n)%nat && (n <=? 90)%nat then ascii_of_nat (n + 32) else c.

Fixpoint toLowerCase (s : string) : string :=
  match s with
  | EmptyString => EmptyString
  | String c s' => String (lower_ascii c) (toLowerCase s')
  end.

(** [hay.includes(needle)]: some suffix of [hay] starts with [needle]. *)
Fixpoint includes (needle hay : string) : bool :=
  String.prefix needle hay ||
  match hay with
  | EmptyString => false
  | String _ hay' => includes needle hay'
  end.

(** Truthiness of a string: only the empty string is falsy. *)
Definition truthy (s : string) : bool :=
  match s with EmptyString => false | _ => true end.

End Js.

(** ** Shared data model (types.ts, analyzers/codebase.ts, analyzers/gaps.ts) *)

Inductive RepoType :=
| requirements_only
| partial_implementation
| existing_app
| hybrid.

(** The parts of [package.json] the recommender reads, as truthiness bits. *)
Record PackageJson := {
  scripts_env : bool;
  readme : bool;
  devDependencies_eslint : bool
}.

Record CodebaseAnalysis := {
  framework : string;
  hasTypescript : bool;
  components : list string;
  pages : list string;
  apis : list string;
  styles : list string;
  tests : list string;
  entryPoint : option string;
  packageJson : option PackageJson
}.

(** ** Classifier (classifier.ts) *)

Module Classifier.

Definition classifyRepository (hasCode hasDocs : bool)
    (codeAnalysis : option CodebaseAnalysis) : RepoType :=
  if negb hasCode && hasDocs then requirements_only
  else if hasCode && negb hasDocs then existing_app
  else if hasCode && hasDocs then
    match codeAnalysis with
    | Some ca =>
        let hasComponents := (0 <? length (components ca))%nat in
        let hasPages := (0 <? length (pages ca))%nat in
        let hasTests := (0 <? length (tests ca))%nat in
        if negb hasComponents || negb hasPages then partial_implementation
        else if hasTests && (5 <? length (components ca))%nat then existing_app
        else hybrid
    | None => partial_implementation
    end
  else requirements_only.

(** The decision table in the words of the specification, over the
    structural counts of the analyzer output ([None] when unavailable). *)
Definition decision_table (hasCode hasDocs : bool)
    (counts : option (nat * nat * bool)) : RepoType :=
  match hasCode, hasDocs with
  | false, true => requirements_only
  | true, false => existing_app
  | true, true =>
      match counts with
      | None => partial_implementation
      | Some (componentCount, pageCount, testsExist) =>
          if decide (componentCount = 0 ∨ pageCount = 0)
          then partial_implementation
          else if decide (testsExist = true ∧ 5 < componentCount)
          then existing_app
          else hybrid
      end
  | false, false => requirements_only
  end.

Definition structural_counts (ca : CodebaseAnalysis) : nat * nat * bool :=
  (length (components ca), length (pages ca),
   negb (Nat.eqb (length (tests ca)) 0)).

(** C1: the classifier is a total function that follows the fixed-order
    decision table of the specification on every input, so each of the
    eight input combinations yields exactly one archetype. *)
Theorem classifyRepository_decision_table :
  ∀ (hasCode hasDocs : bool) (codeAnalysis : option CodebaseAnalysis),
    classifyRepository hasCode hasDocs codeAnalysis
    = decision_table hasCode hasDocs (structural_counts <$> codeAnalysis).
Proof.
  intros [] [] [ca|]; try reflexivity.
  unfold classifyRepository, decision_table, structural_counts.
  cbn [fmap option_fmap option_map negb andb].
  destruct (Nat.ltb_spec 0 (length (components ca))),
    (Nat.ltb_spec 0 (length (pages ca))),
    (Nat.ltb_spec 0 (length (tests ca))),
    (Nat.ltb_spec 5 (length (components ca))),
    (Nat.eqb_spec (length (tests ca)) 0);
    cbn [negb orb andb]; repeat case_decide; try reflexivity;
    exfalso; intuition (discriminate || lia).
Qed.

End Classifier.

(** ** Context Selector (context-selection pattern) *)

Module ContextSelector.

Inductive FileType := component | util | style | config | test.

Definition FileType_eqb (a b : FileType) : bool :=
  match a, b with
  | component, component | util, util | style, style
  | config, config | test, test => true
  | _, _ => false
  end.

Record FileManifest := {
  path : string;
  content : string;
  type : FileType;
  size : Z;
  dependencies : list string;
  exports : list string;
  lastModified : Z
}.

Record ContextSelectionOptions := {
  maxTokens : Z;
  maxFiles : nat;
  priorityPaths : list string;
  excludePaths : list string
}.

Inductive Action := act_create | act_update | act_fix | act_refactor | act_enhance.
Inductive Complexity := simple | moderate | complex.

Record ParsedIntent := {
  action : Action;
  targetPath : option string;
  intent_component : option string;
  keywords : list string;
  fileTypes : list FileType;
  complexity : Complexity
}.

(** [{ ...file, score }] *)
Record ScoredFile := {
  file : FileManifest;
  score : Z
}.

(** [files.sort((a, b) => b.score - a.score)]: descending by score; the sort
    is stable, so files of equal score keep their relative order. *)
Fixpoint insert_by_score (x : ScoredFile) (l : list ScoredFile) : list ScoredFile :=
  match l with
  | [] => [x]
  | y :: l' =>
      if (score x <? score y)%Z then y :: insert_by_score x l'
      else x :: y :: l'
  end.

Fixpoint sort_by_score (l : list ScoredFile) : list ScoredFile :=
  match l with
  | [] => []
  | x :: l' => insert_by_score x (sort_by_score l')
  end.

(** Modelled from the spec: [applyPriorities], step 3 of [selectFiles], is
    not part of the source. The specification says that "a file count
    ceiling is enforced independently of the token budget"; the budgeting
    step never reads [maxFiles], so the ceiling is what this step has to
    guarantee: it hands on at most [maxFiles] candidates. *)
Definition enforces_file_ceiling
    (applyPriorities : list ScoredFile → ContextSelectionOptions → list ScoredFile)
  : Prop :=
  ∀ files options, (length (applyPriorities files options) ≤ maxFiles options)%nat.

Section Selector.

(** Collaborators of the class that the pattern leaves abstract. *)
Variable tokenizer_count : string → Z.
Variable truncateToTokens : ScoredFile → Z → ScoredFile.
Variable hasRelevantDependencies : FileManifest → ParsedIntent → bool.
Variable daysSince : Z → Z.
Variable parseIntent : string → ParsedIntent.
Variable applyPriorities :
  list ScoredFile → ContextSelectionOptions → list ScoredFile.

Definition keywordMatches (f : FileManifest) (intent : ParsedIntent) : nat :=
  length (List.filter
            (λ keyword,
               Js.includes (Js.toLowerCase keyword) (Js.toLowerCase (content f)))
            (keywords intent)).

Definition calculateRelevanceScore (f : FileManifest) (intent : ParsedIntent) : Z :=
  let score := 0%Z in
  (* Path relevance *)
  let score :=
    match targetPath intent with
    | Some tp =>
        if Js.truthy tp && Js.includes tp (path f) then (score + 30)%Z else score
    | None => score
    end in
  (* Keyword matches *)
  let score := (score + Z.min 25 (Z.of_nat (keywordMatches f intent) * 5))%Z in
  (* File type relevance *)
  let score :=
    if existsb (FileType_eqb (type f)) (fileTypes intent)
    then (score + 20)%Z else score in
  (* Dependency relationship *)
  let score :=
    if hasRelevantDependencies f intent then (score + 15)%Z else score in
  (* Recency *)
  let daysSinceModified := daysSince (lastModified f) in
  (score + Z.max 0 (10 - daysSinceModified))%Z.

Definition scoreFiles (files : list FileManifest) (intent : ParsedIntent)
  : list ScoredFile :=
  map (λ f, {| file := f; score := calculateRelevanceScore f intent |}) files.

(** The [for ... of sorted] loop of [selectWithinBudget], with its two
    accumulators; the truncation branch ends the loop ([break]). *)
Fixpoint budget_loop (maxTok : Z) (sorted selected : list ScoredFile)
    (currentTokens : Z) : list ScoredFile :=
  match sorted with
  | [] => selected
  | f :: rest =>
      let fileTokens := tokenizer_count (content (file f)) in
      if (currentTokens + fileTokens <=? maxTok)%Z then
        budget_loop maxTok rest (selected ++ [f]) (currentTokens + fileTokens)
      else if Nat.eqb (length selected) 0 then
        selected ++ [truncateToTokens f maxTok]
      else budget_loop maxTok rest selected currentTokens
  end.

Definition selectWithinBudget (files : list ScoredFile) (maxTok : Z)
  : list ScoredFile :=
  budget_loop maxTok (sort_by_score files) [] 0.

Definition selectFiles (manifest : list FileManifest) (userIntent : string)
    (options : ContextSelectionOptions) : list ScoredFile :=
  let intent := parseIntent userIntent in
  let scoredFiles := scoreFiles manifest intent in
  let prioritized := applyPriorities scoredFiles options in
  selectWithinBudget prioritized (maxTokens options).

(** Summed estimated token count of a selection. *)
Definition total_tokens (sel : list ScoredFile) : Z :=
  foldr (λ f acc, (tokenizer_count (content (file f)) + acc)%Z) 0%Z sel.

(** The five signals, in the words of the specification. *)
Definition path_signal (f : FileManifest) (intent : ParsedIntent) : Z :=
  match targetPath intent with
  | Some tp => if Js.truthy tp && Js.includes tp (path f) then 30 else 0
  | None => 0
  end.

Definition keyword_signal (f : FileManifest) (intent : ParsedIntent) : Z :=
  5 * Z.of_nat (Nat.min 5 (keywordMatches f intent)).

Definition type_signal (f : FileManifest) (intent : ParsedIntent) : Z :=
  if existsb (FileType_eqb (type f)) (fileTypes intent) then 20 else 0.

Definition dependency_signal (f : FileManifest) (intent : ParsedIntent) : Z :=
  if hasRelevantDependencies f intent then 15 else 0.

Definition recency_signal (f : FileManifest) : Z :=
  Z.max 0 (10 - daysSince (lastModified f)).

(** *** Sorting facts *)

Lemma insert_by_score_length x l :
  length (insert_by_score x l) = S (length l).
Proof.
  induction l as [|y l IH]; simpl; [reflexivity|].
  destruct (score x <? score y)%Z; simpl; congruence.
Qed.

Lemma sort_by_score_length l : length (sort_by_score l) = length l.
Proof.
  induction l as [|x l IH]; simpl; [reflexivity|].
  rewrite insert_by_score_length. congruence.
Qed.

Lemma insert_by_score_perm x l : insert_by_score x l ≡ₚ x :: l.
Proof.
  induction l as [|y l IH]; simpl; [reflexivity|].
  destruct (score x <? score y)%Z; [|reflexivity].
  rewrite IH. apply Permutation_swap.
Qed.

Lemma sort_by_score_perm l : sort_by_score l ≡ₚ l.
Proof.
  induction l as [|x l IH]; simpl; [reflexivity|].
  rewrite insert_by_score_perm. by rewrite IH.
Qed.

(** The head of the sorted list carries the highest score. *)
Lemma sort_by_score_head_max l top rest :
  sort_by_score l = top :: rest →
  Forall (λ g, (score g ≤ score top)%Z) l.
Proof.
  revert top rest. induction l as [|x l IH]; intros top rest Hs; [constructor|].
  simpl in Hs. destruct (sort_by_score l) as [|y r] eqn:Hl.
  - assert (l = []) as ->.
    { apply length_zero_iff_nil. rewrite <- sort_by_score_length, Hl. reflexivity. }
    simpl in Hs. injection Hs as <- _. constructor; [lia | constructor].
  - specialize (IH y r eq_refl). simpl in Hs.
    destruct (Z.ltb_spec (score x) (score y)) as [Hlt|Hge].
    + injection Hs as <- _. constructor; [lia | exact IH].
    + injection Hs as <- _. constructor; [lia|].
      eapply Forall_impl; [exact IH|]. intros g Hg. simpl in Hg. lia.
Qed.

Lemma sort_by_score_head_elem l top rest :
  sort_by_score l = top :: rest → top ∈ l.
Proof.
  intros Hs. rewrite <- (sort_by_score_perm l), Hs. apply list_elem_of_here.
Qed.

(** *** The budgeting loop *)

Lemma total_tokens_app sel1 sel2 :
  total_tokens (sel1 ++ sel2) = (total_tokens sel1 + total_tokens sel2)%Z.
Proof.
  induction sel1 as [|f sel1 IH]; simpl; [reflexivity|]. rewrite IH. lia.
Qed.

(** Once a file has been accepted, the loop only accepts further files that
    fit, never truncates, and keeps what it has already selected. *)
Lemma budget_loop_started maxTok sorted selected cur :
  selected ≠ [] →
  total_tokens selected = cur →
  (cur ≤ maxTok)%Z →
  let r := budget_loop maxTok sorted selected cur in
  (total_tokens r ≤ maxTok)%Z ∧ selected `prefix_of` r ∧
  (length r ≤ length selected + length sorted)%nat.
Proof.
  revert selected cur.
  induction sorted as [|f rest IH]; intros selected cur Hne Htot Hle; simpl.
  - split; [lia|]. split; [reflexivity | lia].
  - destruct (Z.leb_spec (cur + tokenizer_count (content (file f))) maxTok)
      as [Hfit|Hover].
    + destruct (IH (selected ++ [f]) (cur + tokenizer_count (content (file f)))%Z)
        as (Ht & Hp & Hl).
      * intros Habs. by apply app_eq_nil in Habs as [_ ?].
      * rewrite total_tokens_app. simpl. lia.
      * exact Hfit.
      * split; [exact Ht|]. split.
        -- etrans; [|exact Hp]. by apply prefix_app_r.
        -- rewrite length_app in Hl. simpl in Hl. lia.
    + destruct selected as [|s0 sel]; [done|]. simpl.
      destruct (IH (s0 :: sel) cur Hne Htot Hle) as (Ht & Hp & Hl).
      split; [exact Ht|]. split; [exact Hp | simpl in *; lia].
Qed.

(** The first iteration decides between accepting and truncating. *)
Lemma budget_loop_first maxTok f rest :
  budget_loop maxTok (f :: rest) [] 0 =
  if (tokenizer_count (content (file f)) <=? maxTok)%Z
  then budget_loop maxTok rest [f] (tokenizer_count (content (file f)))
  else [truncateToTokens f maxTok].
Proof. reflexivity. Qed.

Lemma selectWithinBudget_length files maxTok :
  (length (selectWithinBudget files maxTok) ≤ length files)%nat.
Proof.
  unfold selectWithinBudget. rewrite <- (sort_by_score_length files).
  destruct (sort_by_score files) as [|f rest]; [reflexivity|].
  rewrite budget_loop_first.
  destruct (Z.leb_spec (tokenizer_count (content (file f))) maxTok); [|simpl; lia].
  destruct (budget_loop_started maxTok rest [f] (tokenizer_count (content (file f))))
    as (_ & _ & Hl); [done | simpl; lia | done | simpl in *; lia].
Qed.

(** C2: under a non-negative token limit, the selection either stays
    within the limit, or it consists of exactly one file: the
    highest-scoring candidate, truncated, which alone exceeded the limit. *)
Theorem selectWithinBudget_respects_budget :
  ∀ (files : list ScoredFile) (maxTok : Z),
    (0 ≤ maxTok)%Z →
    (total_tokens (selectWithinBudget files maxTok) ≤ maxTok)%Z
    ∨ ∃ top,
        head (sort_by_score files) = Some top
        ∧ Forall (λ g, (score g ≤ score top)%Z) files
        ∧ (maxTok < tokenizer_count (content (file top)))%Z
        ∧ selectWithinBudget files maxTok = [truncateToTokens top maxTok].
Proof.
  intros files maxTok Hpos. unfold selectWithinBudget.
  destruct (sort_by_score files) as [|f rest] eqn:Hs; [left; simpl; lia|].
  rewrite budget_loop_first.
  destruct (Z.leb_spec (tokenizer_count (content (file f))) maxTok) as [Hfit|Hover].
  - left.
    destruct (budget_loop_started maxTok rest [f] (tokenizer_count (content (file f))))
      as (Ht & _ & _); [done | simpl; lia | done | exact Ht].
  - right. exists f. repeat split; [|exact Hover].
    eapply sort_by_score_head_max; exact Hs.
Qed.

(** C3: a non-empty candidate list always yields a non-empty selection;
    the highest-scoring candidate leads it, as it is when it fits and
    truncated (and alone) when it exceeds the token limit by itself. *)
Theorem selectWithinBudget_at_least_one :
  ∀ (files : list ScoredFile) (maxTok : Z),
    files ≠ [] →
    selectWithinBudget files maxTok ≠ []
    ∧ ∃ top,
        top ∈ files
        ∧ head (sort_by_score files) = Some top
        ∧ Forall (λ g, (score g ≤ score top)%Z) files
        ∧ ((maxTok < tokenizer_count (content (file top)))%Z →
           selectWithinBudget files maxTok = [truncateToTokens top maxTok])
        ∧ ((tokenizer_count (content (file top)) ≤ maxTok)%Z →
           head (selectWithinBudget files maxTok) = Some top).
Proof.
  intros files maxTok Hne. unfold selectWithinBudget.
  destruct (sort_by_score files) as [|f rest] eqn:Hs.
  { exfalso. apply Hne, length_zero_iff_nil.
    rewrite <- sort_by_score_length, Hs. reflexivity. }
  rewrite budget_loop_first.
  assert (Hmax := sort_by_score_head_max _ _ _ Hs).
  assert (Hin := sort_by_score_head_elem _ _ _ Hs).
  destruct (Z.leb_spec (tokenizer_count (content (file f))) maxTok) as [Hfit|Hover].
  - destruct (budget_loop_started maxTok rest [f] (tokenizer_count (content (file f))))
      as (_ & [k Hk] & _); [done | simpl; lia | done |].
    rewrite Hk. split; [done|]. exists f. repeat split; try done. lia.
  - split; [done|]. exists f. repeat split; try done. lia.
Qed.


(** *** Relevance score *)

Lemma calculateRelevanceScore_sum f intent :
  calculateRelevanceScore f intent
  = (path_signal f intent + keyword_signal f intent + type_signal f intent
     + dependency_signal f intent + recency_signal f)%Z.
Proof.
  unfold calculateRelevanceScore, path_signal, keyword_signal, type_signal,
    dependency_signal, recency_signal.
  destruct (targetPath intent) as [tp|];
    [destruct (Js.truthy tp && Js.includes tp (path f))|];
    destruct (existsb _ _), (hasRelevantDependencies f intent); lia.
Qed.


End Selector.

(** *** A concrete selector *)

Local Open Scope string_scope.

(** One token per character, truncation by cutting the content. *)
Definition chars_count (s : string) : Z := Z.of_nat (String.length s).

Definition cut_content (f : ScoredFile) (maxTok : Z) : ScoredFile :=
  {| file :=
       {| path := path (file f);
          content := String.substring 0 (Z.to_nat maxTok) (content (file f));
          type := type (file f);
          size := size (file f);
          dependencies := dependencies (file f);
          exports := exports (file f);
          lastModified := lastModified (file f) |};
     score := score f |}.

Definition source (p c : string) (t : FileType) (modified : Z) : FileManifest :=
  {| path := p; content := c; type := t; size := Z.of_nat (String.length c);
     dependencies := []; exports := []; lastModified := modified |}.

Definition login_intent : ParsedIntent :=
  {| action := act_fix;
     targetPath := Some "components/";
     intent_component := None;
     keywords := ["login"; "button"; "onclick"];
     fileTypes := [component];
     complexity := simple |}.

Definition corpus : list FileManifest :=
  [ source "components/Login.tsx" "export const Login = () => <button onClick={go}>login</button>" component 3;
    source "lib/date.ts" "export const now = () => Date.now()" util 40;
    source "styles/app.css" ".button { color: red }" style 1 ].

Definition scored_corpus : list ScoredFile :=
  scoreFiles (λ _ _, false) (λ modified, modified) corpus login_intent.

Definition keep_first (files : list ScoredFile) (options : ContextSelectionOptions)
  : list ScoredFile :=
  take (maxFiles options) files.

Example scored_corpus_scores : map score scored_corpus = [72; 0; 14]%Z.
Proof. vm_compute. reflexivity. Qed.

(** The budgeting step by itself has no file ceiling: with room for all
    three files it returns all three. *)
Example selectWithinBudget_takes_all :
  map (λ f, path (file f))
      (selectWithinBudget chars_count cut_content scored_corpus 4000)
  = ["components/Login.tsx"; "styles/app.css"; "lib/date.ts"].
Proof. vm_compute. reflexivity. Qed.

Example selectWithinBudget_truncates :
  map (λ f, content (file f))
      (selectWithinBudget chars_count cut_content scored_corpus 12)
  = ["export const"].
Proof. vm_compute. reflexivity. Qed.

Lemma selectWithinBudget_respects_budget_witness :
  (total_tokens chars_count
     (selectWithinBudget chars_count cut_content scored_corpus 12) ≤ 12)%Z
  ∨ ∃ top,
      head (sort_by_score scored_corpus) = Some top
      ∧ Forall (λ g, (score g ≤ score top)%Z) scored_corpus
      ∧ (12 < chars_count (content (file top)))%Z
      ∧ selectWithinBudget chars_count cut_content scored_corpus 12
        = [cut_content top 12].
Proof.
  apply (selectWithinBudget_respects_budget chars_count cut_content
           scored_corpus 12).
  lia.
Defined.

Lemma selectWithinBudget_at_least_one_witness :
  selectWithinBudget chars_count cut_content scored_corpus 12 ≠ []
  ∧ ∃ top,
      top ∈ scored_corpus
      ∧ head (sort_by_score scored_corpus) = Some top
      ∧ Forall (λ g, (score g ≤ score top)%Z) scored_corpus
      ∧ ((12 < chars_count (content (file top)))%Z →
         selectWithinBudget chars_count cut_content scored_corpus 12
         = [cut_content top 12])
      ∧ ((chars_count (content (file top)) ≤ 12)%Z →
         head (selectWithinBudget chars_count cut_content scored_corpus 12)
         = Some top).
Proof.
  apply (selectWithinBudget_at_least_one chars_count cut_content
           scored_corpus 12).
  discriminate.
Defined.



End ContextSelector.

(** ** Dependency expansion (DependencyAnalyzer.findRelatedFiles) *)

Module DependencyAnalyzer.

(** [Map<string, Set<string>>]: every set is kept as the list of its
    elements in insertion order, which is the order JavaScript iterates in. *)
Abbreviation DependencyGraph := (gmap string (list string)).

(** [related.add(file)] on an insertion-ordered set. *)
Definition set_add (x : string) (s : list string) : list string :=
  if bool_decide (x ∈ s) then s else s ++ [x].

Definition set_has (x : string) (s : list string) : bool := bool_decide (x ∈ s).

(** One iteration of the [while (queue.length > 0)] loop per unit of fuel;
    [None] means the fuel ran out before the queue did. *)
Fixpoint bfs_loop (fuel : nat) (graph : DependencyGraph) (depth : nat)
    (related : list string) (queue : list (string * nat)) : option (list string) :=
  match queue with
  | [] => Some related
  | (file, currentDepth) :: queue =>
      match fuel with
      | O => None
      | S fuel =>
          if (depth <? currentDepth)%nat then
            bfs_loop fuel graph depth related queue
          else
            let related := set_add file related in
            let deps := default [] (graph !! file) in
            let pushed :=
              map (λ dep, (dep, S currentDepth))
                  (List.filter (λ dep, negb (set_has dep related)) deps) in
            bfs_loop fuel graph depth related (queue ++ pushed)
      end
  end.

Definition default_depth : nat := 2.

Definition findRelatedFiles (fuel : nat) (targetFile : string)
    (graph : DependencyGraph) (depth : nat) : option (list string) :=
  bfs_loop fuel graph depth [] [(targetFile, 0)].

(** Largest number of imports of a single file. *)
Definition max_out_degree (graph : DependencyGraph) : nat :=
  map_fold (λ _ deps acc, Nat.max (length deps) acc) 0 graph.

(** Number of iterations a queue entry can cause, itself included, when it
    sits [k] levels above the first level that is cut off. *)
Fixpoint entry_cost (b k : nat) : nat :=
  match k with
  | O => 1
  | S k => 1 + b * entry_cost b k
  end.

Definition entry_weight (b depth currentDepth : nat) : nat :=
  entry_cost b (S depth - currentDepth).

Definition queue_weight (b depth : nat) (queue : list (string * nat)) : nat :=
  foldr (λ e acc, entry_weight b depth e.2 + acc) 0 queue.

Definition bfs_fuel (graph : DependencyGraph) (depth : nat) : nat :=
  entry_weight (max_out_degree graph) depth 0.

(** The two-file cycle of the specification: A imports B, B imports A. *)
Definition cycle_graph : DependencyGraph :=
  <["A"%string := ["B"%string]]> (<["B"%string := ["A"%string]]> ∅).

Lemma max_out_degree_bound (graph : DependencyGraph) file deps :
  graph !! file = Some deps → length deps ≤ max_out_degree graph.
Proof.
  unfold max_out_degree. revert file deps.
  apply (map_fold_weak_ind
           (λ acc (m : DependencyGraph),
              ∀ file deps, m !! file = Some deps → length deps ≤ acc)).
  - intros file deps H. by rewrite lookup_empty in H.
  - intros i x m r Hi IH file deps H.
    destruct (decide (i = file)) as [->|Hne].
    + rewrite lookup_insert_eq in H. injection H as ->. lia.
    + rewrite lookup_insert_ne in H by done. specialize (IH _ _ H). lia.
Qed.

Lemma queue_weight_app b depth q1 q2 :
  queue_weight b depth (q1 ++ q2) = queue_weight b depth q1 + queue_weight b depth q2.
Proof. induction q1 as [|e q1 IH]; simpl; [reflexivity | rewrite IH; lia]. Qed.

Lemma queue_weight_pushed b depth d (deps : list string) :
  queue_weight b depth (map (λ dep, (dep, d)) deps)
  = length deps * entry_weight b depth d.
Proof. induction deps as [|x deps IH]; simpl; [reflexivity | rewrite IH; lia]. Qed.

Lemma filter_length_le {A} (p : A → bool) (l : list A) :
  length (List.filter p l) ≤ length l.
Proof. induction l as [|x l IH]; simpl; [lia|]. destruct (p x); simpl; lia. Qed.

Lemma set_add_NoDup x s : NoDup s → NoDup (set_add x s).
Proof.
  intros Hs. unfold set_add. case_bool_decide as Hx; [exact Hs|].
  apply NoDup_app. split; [exact Hs|]. split.
  - intros y Hy Hy'. apply list_elem_of_singleton in Hy'. by subst.
  - apply NoDup_singleton.
Qed.

Lemma set_add_elem x s : x ∈ set_add x s.
Proof.
  unfold set_add. case_bool_decide; [done|].
  apply elem_of_app. right. apply list_elem_of_here.
Qed.

Lemma set_add_subseteq x s : s ⊆ set_add x s.
Proof.
  unfold set_add. case_bool_decide; [done|].
  intros y Hy. apply elem_of_app. by left.
Qed.

(** Every iteration strictly lowers the weight of the queue, so a fuel of
    at least that weight lets the loop run to the empty queue. *)
Lemma bfs_loop_terminates (graph : DependencyGraph) depth fuel related queue :
  queue_weight (max_out_degree graph) depth queue ≤ fuel →
  NoDup related →
  ∃ r, bfs_loop fuel graph depth related queue = Some r
       ∧ NoDup r ∧ related ⊆ r.
Proof.
  revert related queue.
  induction fuel as [|fuel IH]; intros related queue Hw Hnd.
  - destruct queue as [|[f d] q]; [by exists related|].
    simpl in Hw. unfold entry_weight in Hw.
    destruct (S depth - d); simpl in Hw; lia.
  - destruct queue as [|[f d] q]; [by exists related|].
    simpl in Hw. simpl bfs_loop.
    destruct (Nat.ltb_spec depth d) as [Hcut|Hin].
    + apply IH; [|exact Hnd]. unfold entry_weight in Hw.
      destruct (S depth - d); simpl in Hw; lia.
    + set (related' := set_add f related).
      set (deps := default [] (graph !! f)).
      destruct (IH related'
                  (q ++ map (λ dep, (dep, S d))
                          (List.filter (λ dep, negb (set_has dep related')) deps)))
        as (r & Hr & Hndr & Hsub).
      * rewrite queue_weight_app, queue_weight_pushed.
        assert (Hdeg : length deps ≤ max_out_degree graph).
        { subst deps. destruct (graph !! f) as [ds|] eqn:Hg; simpl; [|lia].
          eapply max_out_degree_bound; exact Hg. }
        pose proof (filter_length_le (λ dep, negb (set_has dep related')) deps) as Hf.
        unfold entry_weight in *.
        replace (S depth - d) with (S (depth - d)) in Hw by lia.
        replace (S depth - S d) with (depth - d) by lia.
        simpl in Hw.
        assert (length (List.filter (λ dep, negb (set_has dep related')) deps)
                * entry_cost (max_out_degree graph) (depth - d)
                ≤ max_out_degree graph * entry_cost (max_out_degree graph) (depth - d))
          by (apply Nat.mul_le_mono_r; lia).
        lia.
      * by apply set_add_NoDup.
      * exists r. split; [exact Hr|]. split; [exact Hndr|].
        etrans; [apply set_add_subseteq | exact Hsub].
Qed.

(** Whatever the loop returns keeps the files already visited. *)
Lemma bfs_loop_subseteq (graph : DependencyGraph) depth fuel related queue r :
  bfs_loop fuel graph depth related queue = Some r → related ⊆ r.
Proof.
  revert related queue.
  induction fuel as [|fuel IH]; intros related queue Hr.
  - destruct queue as [|[g d] queue]; [|discriminate]. by injection Hr as <-.
  - destruct queue as [|[g d] queue]; [by injection Hr as <-|].
    simpl in Hr. destruct (depth <? d)%nat; [by eapply IH|].
    etrans; [apply set_add_subseteq | eapply IH; exact Hr].
Qed.

(** More fuel never changes a result. *)
Lemma bfs_loop_fuel_mono (graph : DependencyGraph) depth fuel extra related queue r :
  bfs_loop fuel graph depth related queue = Some r →
  bfs_loop (fuel + extra) graph depth related queue = Some r.
Proof.
  revert related queue.
  induction fuel as [|fuel IH]; intros related queue Hr.
  - destruct queue as [|[g d] queue]; [|discriminate].
    destruct extra; exact Hr.
  - destruct queue as [|[g d] queue]; [exact Hr|].
    simpl in *. destruct (depth <? d)%nat; by apply IH.
Qed.

(** C6: dependency expansion terminates on every finite graph, cyclic or
    not: with the fuel [bfs_fuel graph depth], or any larger one, the loop
    reaches the empty queue and returns a list without duplicates that
    contains the target; on the cycle A -> B -> A, started from A with the
    default depth, it returns exactly A and B, once each. *)
Theorem findRelatedFiles_terminates :
  (∀ (graph : DependencyGraph) (targetFile : string) (depth extra : nat),
      ∃ r, findRelatedFiles (bfs_fuel graph depth + extra) targetFile graph depth
           = Some r
           ∧ NoDup r ∧ targetFile ∈ r)
  ∧ (∀ extra,
        findRelatedFiles (bfs_fuel cycle_graph default_depth + extra)
          "A"%string cycle_graph default_depth
        = Some ["A"%string; "B"%string]).
Proof.
  split.
  - intros graph targetFile depth extra. unfold findRelatedFiles.
    destruct (bfs_loop_terminates graph depth (bfs_fuel graph depth + extra)
                [] [(targetFile, 0)]) as (r & Hr & Hnd & _).
    + simpl. unfold bfs_fuel. lia.
    + apply NoDup_nil_2.
    + exists r. split; [exact Hr|]. split; [exact Hnd|].
      destruct (bfs_fuel graph depth + extra) as [|n]; [discriminate|].
      simpl in Hr. destruct (Nat.ltb_spec depth 0) as [Hcut|_]; [lia|].
      apply bfs_loop_subseteq in Hr. apply Hr, set_add_elem.
  - intros extra. unfold findRelatedFiles.
    apply bfs_loop_fuel_mono. vm_compute. reflexivity.
Qed.

End DependencyAnalyzer.

(** ** Quality metrics (analyzers/quality.ts, calculateMetrics) *)

Module Quality.

Local Open Scope Z_scope.

(** JavaScript numbers are IEEE 754 binary64 values. *)
Definition prec : Z := 53.
Definition emax : Z := 1024.

(** An array length, which is an integer below 2^32, as a number. *)
Definition max_array_length : N := 4294967295%N.
Definition number_of_length (n : N) : spec_float :=
  binary_normalize prec emax (Z.of_N n) 0 false.

(** What [Math.round] and [Math.min(_, 100)] can return. *)
Inductive rounded :=
| Integer (z : Z)
| PlusInfinity
| MinusInfinity
| NotANumber.

(** [Math.round(x)]: the integer nearest to [x], ties going up, that is
    floor(x + 1/2) computed exactly. *)
Definition Math_round (x : spec_float) : rounded :=
  match x with
  | S754_zero _ => Integer 0
  | S754_infinity false => PlusInfinity
  | S754_infinity true => MinusInfinity
  | S754_nan => NotANumber
  | S754_finite s m e =>
      let v := if s then Zneg m else Zpos m in
      Integer (match e with
               | Zneg k => (2 * v + 2 ^ Zpos k) / 2 ^ (Zpos k + 1)
               | _ => v * 2 ^ e
               end)
  end.

(** [Math.min(r, 100)] *)
Definition Math_min_100 (r : rounded) : rounded :=
  match r with
  | Integer z => Integer (Z.min z 100)
  | PlusInfinity => Integer 100
  | MinusInfinity => MinusInfinity
  | NotANumber => NotANumber
  end.

(** [Math.min(Math.round((testFiles.length / Math.max(codeFiles.length, 1))
    * 100), 100)]: the quotient is rounded to a double first, then the
    product with 100 is rounded again. *)
Definition testCoverage (testFiles codeFiles : N) : rounded :=
  let ratio :=
    SFdiv prec emax (number_of_length testFiles)
      (number_of_length (N.max codeFiles 1%N)) in
  Math_min_100 (Math_round (SFmul prec emax ratio (number_of_length 100%N))).

(** The estimate in the words of the specification, in exact arithmetic:
    min(100, round(100 * testFileCount / max(1, sourceFileCount))), once
    with ties rounded up and once with ties rounded to even. *)
Definition round_half_up (p q : Z) : Z := (2 * p + q) / (2 * q).

Definition round_half_even (p q : Z) : Z :=
  let fl := p / q in
  match (2 * (p mod q) ?= q)%Z with
  | Lt => fl
  | Gt => fl + 1
  | Eq => if Z.even fl then fl else fl + 1
  end.

Definition coverage_formula (round : Z → Z → Z) (testFileCount sourceFileCount : N) : Z :=
  Z.min 100 (round (100 * Z.of_N testFileCount)%Z (Z.max 1 (Z.of_N sourceFileCount))).

(** The exact value 100 * t / max(1, s) lies halfway between two integers. *)
Definition is_tie (testFileCount sourceFileCount : N) : bool :=
  let q := Z.max 1 (Z.of_N sourceFileCount) in
  2 * ((100 * Z.of_N testFileCount) mod q) =? q.

Definition agrees_with_formula (testFiles codeFiles : N) : bool :=
  match testCoverage testFiles codeFiles with
  | Integer k => k =? coverage_formula round_half_up testFiles codeFiles
  | _ => false
  end.

Definition counts_up_to (n : nat) : list N := map N.of_nat (seq 0 (S n)).

(** Zero, a positive finite number, or plus infinity. *)
Definition nonnegative (x : spec_float) : Prop :=
  match x with
  | S754_zero false | S754_finite false _ _ | S754_infinity false => True
  | _ => False
  end.

Definition positive_finite (x : spec_float) : Prop :=
  match x with
  | S754_finite false _ _ => True
  | _ => False
  end.

Example testCoverage_half : testCoverage 1%N 2%N = Integer 50.
Proof. vm_compute. reflexivity. Qed.

Example testCoverage_third : testCoverage 1%N 3%N = Integer 33.
Proof. vm_compute. reflexivity. Qed.

Example testCoverage_no_code : testCoverage 0%N 0%N = Integer 0.
Proof. vm_compute. reflexivity. Qed.

Example testCoverage_capped : testCoverage 7%N 3%N = Integer 100.
Proof. vm_compute. reflexivity. Qed.

Example testCoverage_tie_up : testCoverage 1%N 200%N = Integer 1.
Proof. vm_compute. reflexivity. Qed.

Example testCoverage_tie_down : testCoverage 29%N 200%N = Integer 14.
Proof. vm_compute. reflexivity. Qed.

(** Away from ties the double-precision estimate and the exact formula
    agree, here checked for all counts up to 64. *)
Example testCoverage_agrees_off_ties :
  forallb (λ t, forallb (λ c, is_tie t c || agrees_with_formula t c)
                  (counts_up_to 64))
    (counts_up_to 64) = true.
Proof. vm_compute. reflexivity. Qed.

(** *** Sign and finiteness of the intermediate numbers *)

Lemma iter_pos_invariant {A} (P : A → Prop) (f : A → A) :
  (∀ x, P x → P (f x)) → ∀ n x, P x → P (SpecFloat.iter_pos f n x).
Proof.
  intros Hf. induction n as [n IH|n IH|]; intros x Hx; simpl; auto.
Qed.

Lemma shr_1_nonneg mrs : 0 ≤ shr_m mrs → 0 ≤ shr_m (shr_1 mrs).
Proof.
  destruct mrs as [m r s]. simpl.
  destruct m as [|[p|p|]|[p|p|]]; simpl; lia.
Qed.

Lemma shr_nonneg mrs e n : 0 ≤ shr_m mrs → 0 ≤ shr_m (shr mrs e n).1.
Proof.
  intros H. unfold shr. destruct n; simpl; try exact H.
  apply (iter_pos_invariant (λ r, 0 ≤ shr_m r)); [apply shr_1_nonneg | exact H].
Qed.

Lemma shr_fexp_nonneg m e l : 0 ≤ m → 0 ≤ shr_m (shr_fexp prec emax m e l).1.
Proof.
  intros H. unfold shr_fexp. apply shr_nonneg.
  destruct l as [|[]]; exact H.
Qed.

Lemma round_nearest_even_nonneg m l : 0 ≤ m → 0 ≤ round_nearest_even m l.
Proof.
  intros H. unfold round_nearest_even.
  destruct l as [|[]]; try lia. destruct (Z.even m); lia.
Qed.

(** Rounding a non-negative mantissa never yields a NaN or a negative
    number. *)
Lemma binary_round_aux_nonnegative m e l :
  0 ≤ m → nonnegative (binary_round_aux prec emax false m e l).
Proof.
  intros H. unfold binary_round_aux.
  pose proof (shr_fexp_nonneg m e l H) as H1.
  destruct (shr_fexp prec emax m e l) as [mrs' e'] eqn:E1. simpl in H1.
  pose proof (shr_fexp_nonneg _ e' loc_Exact
                (round_nearest_even_nonneg _ (loc_of_shr_record mrs') H1)) as H2.
  destruct (shr_fexp prec emax (round_nearest_even _ _) e' loc_Exact)
    as [mrs'' e''] eqn:E2. simpl in H2.
  destruct (shr_m mrs'') as [|q|q]; simpl; [exact I | | lia].
  destruct (e'' <=? emax - prec); exact I.
Qed.

Lemma SFdiv_nonnegative x y :
  nonnegative x → x ≠ S754_infinity false → positive_finite y →
  nonnegative (SFdiv prec emax x y).
Proof.
  intros Hx Hinf Hy.
  destruct y as [| | |[] my ey]; try contradiction.
  destruct x as [[]|[]| |[] mx ex]; try contradiction; try exact I.
  unfold SFdiv.
  destruct (SFdiv_core_binary prec emax (Z.pos mx) ex (Z.pos my) ey)
    as [[mz ez] lz] eqn:E.
  apply binary_round_aux_nonnegative.
  unfold SFdiv_core_binary in E.
  set (m' := match _ - _ with Z0 => _ | Zpos _ => _ | Zneg _ => _ end) in E.
  assert (Hm' : 0 ≤ m').
  { subst m'. destruct (_ - _); try lia. apply Z.shiftl_nonneg. lia. }
  pose proof (Z_div_mod m' (Z.pos my) ltac:(lia)) as Hdm.
  destruct (Z.div_eucl m' (Z.pos my)) as [q r].
  injection E as <- _ _. destruct Hdm as [Heq Hr]. nia.
Qed.

Lemma SFmul_nonnegative x y :
  nonnegative x → positive_finite y → nonnegative (SFmul prec emax x y).
Proof.
  intros Hx Hy.
  destruct y as [| | |[] my ey]; try contradiction.
  destruct x as [[]|[]| |[] mx ex]; try contradiction; try exact I.
  unfold SFmul. apply binary_round_aux_nonnegative. simpl. lia.
Qed.

Lemma Math_min_100_round_range x :
  nonnegative x →
  ∃ k, Math_min_100 (Math_round x) = Integer k ∧ 0 ≤ k ≤ 100.
Proof.
  intros Hx.
  destruct x as [[]|[]| |[] m e]; try contradiction; simpl.
  - exists 0. split; [reflexivity | lia].
  - exists 100. split; [reflexivity | lia].
  - eexists. split; [reflexivity|]. split; [|lia].
    apply Z.min_glb; [|lia].
    destruct e as [|k|k].
    + lia.
    + apply Z.mul_nonneg_nonneg; [lia | apply Z.pow_nonneg; lia].
    + apply Z.div_pos; [|apply Z.pow_pos_nonneg; lia].
      pose proof (Z.pow_nonneg 2 (Z.pos k)). lia.
Qed.

(** *** Array lengths are exactly representable *)

Lemma digits2_pos_bound p k :
  0 ≤ k → Z.pos p < 2 ^ k → Z.pos (digits2_pos p) ≤ k.
Proof.
  revert k. induction p as [p IH|p IH|]; intros k Hk Hlt.
  - assert (k ≠ 0) by (intros ->; simpl in Hlt; lia).
    replace k with (Z.succ (k - 1)) in Hlt by lia.
    rewrite Z.pow_succ_r in Hlt by lia.
    specialize (IH (k - 1) ltac:(lia) ltac:(lia)). simpl. lia.
  - assert (k ≠ 0) by (intros ->; simpl in Hlt; lia).
    replace k with (Z.succ (k - 1)) in Hlt by lia.
    rewrite Z.pow_succ_r in Hlt by lia.
    specialize (IH (k - 1) ltac:(lia) ltac:(lia)). simpl. lia.
  - assert (k ≠ 0) by (intros ->; simpl in Hlt; lia). simpl. lia.
Qed.

Lemma digits2_pos_iter_xO p q :
  Z.pos (digits2_pos (Pos.iter xO p q)) = Z.pos (digits2_pos p) + Z.pos q.
Proof.
  induction q as [|q IH] using Pos.peano_ind.
  - simpl. lia.
  - rewrite Pos.iter_succ. simpl. lia.
Qed.

(** A full 53-digit mantissa with an exponent in range is left as it is. *)
Lemma binary_round_aux_exact m e :
  Z.pos (digits2_pos m) = 53 → -1074 ≤ e ≤ 971 →
  binary_round_aux prec emax false (Z.pos m) e loc_Exact = S754_finite false m e.
Proof.
  intros Hm He.
  assert (Hshift : fexp prec emax (Zdigits2 (Z.pos m) + e) - e = 0).
  { simpl Zdigits2. rewrite Hm. unfold fexp, emin, prec, emax. lia. }
  unfold binary_round_aux, shr_fexp. rewrite Hshift. simpl.
  simpl Zdigits2 in Hshift. rewrite Hshift. simpl.
  destruct (Z.leb_spec e (emax - prec)) as [_|Hgt]; [reflexivity|].
  unfold emax, prec in Hgt. lia.
Qed.

Lemma number_of_length_zero : number_of_length 0%N = S754_zero false.
Proof. reflexivity. Qed.

(** A positive array length is a positive finite number: the conversion
    shifts its binary digits to the top of the 53-bit mantissa and neither
    rounds nor overflows. *)
Lemma number_of_length_positive n :
  (0 < n ≤ max_array_length)%N → positive_finite (number_of_length n).
Proof.
  intros [Hpos Hmax]. destruct n as [|p]; [lia|].
  unfold number_of_length. simpl Z.of_N. unfold binary_normalize, binary_round.
  assert (Hd : Z.pos (digits2_pos p) ≤ 32).
  { apply digits2_pos_bound; [lia|]. unfold max_array_length in Hmax. lia. }
  assert (Hf : fexp prec emax (Z.pos (digits2_pos p) + 0)
               = Z.pos (digits2_pos p) - 53)
    by (unfold fexp, emin, prec, emax; lia).
  rewrite Hf. unfold shl_align.
  destruct (Z.pos (digits2_pos p) - 53 - 0) as [|q|q] eqn:E; try lia.
  rewrite binary_round_aux_exact; [exact I | | lia].
  rewrite digits2_pos_iter_xO. lia.
Qed.




End Quality.

(** ** Requirements extractor (deduplicateFeatures) *)

Module Requirements.

Inductive Priority := high | medium | low.
Inductive Status := planned | in_progress | completed.

Record ExtractedFeature := {
  name : string;
  description : option string;
  priority : option Priority;
  status : option Status
}.

(** The dedup key of a feature: [feature.name.toLowerCase()]. *)
Definition feature_key (feature : ExtractedFeature) : string :=
  Js.toLowerCase (name feature).

(** [features.filter(...)] with the [seen] set threaded through the calls
    of the predicate. *)
Fixpoint dedup_filter (seen : gset string) (features : list ExtractedFeature)
  : list ExtractedFeature :=
  match features with
  | [] => []
  | feature :: rest =>
      let key := feature_key feature in
      if bool_decide (key ∈ seen) then dedup_filter seen rest
      else feature :: dedup_filter ({[key]} ∪ seen) rest
  end.

Definition deduplicateFeatures (features : list ExtractedFeature)
  : list ExtractedFeature :=
  dedup_filter ∅ features.

(** [g] is the first entry of [l] that carries its key. *)
Definition first_with_key (g : ExtractedFeature) (l : list ExtractedFeature) : Prop :=
  ∃ before after,
    l = before ++ g :: after
    ∧ Forall (λ h, feature_key h ≠ feature_key g) before.

Lemma dedup_filter_unseen seen features g :
  g ∈ dedup_filter seen features → feature_key g ∉ seen.
Proof.
  revert seen. induction features as [|f rest IH]; intros seen Hg; simpl in Hg.
  - by apply elem_of_nil in Hg.
  - case_bool_decide as Hseen; [by apply IH|].
    apply elem_of_cons in Hg as [->|Hg]; [exact Hseen|].
    apply IH in Hg. set_solver.
Qed.

Lemma dedup_filter_NoDup seen features :
  NoDup (feature_key <$> dedup_filter seen features).
Proof.
  revert seen. induction features as [|f rest IH]; intros seen; simpl.
  - apply NoDup_nil_2.
  - case_bool_decide as Hseen; [apply IH|].
    rewrite fmap_cons. apply NoDup_cons. split; [|apply IH].
    intros Hin. apply list_elem_of_fmap in Hin as (g & Hk & Hg).
    apply dedup_filter_unseen in Hg. set_solver.
Qed.

Lemma dedup_filter_sublist seen features :
  dedup_filter seen features `sublist_of` features.
Proof.
  revert seen. induction features as [|f rest IH]; intros seen; simpl.
  - constructor.
  - case_bool_decide; [apply sublist_cons, IH | apply sublist_skip, IH].
Qed.

Lemma dedup_filter_first seen features g :
  g ∈ dedup_filter seen features → first_with_key g features.
Proof.
  revert seen. induction features as [|f rest IH]; intros seen Hg; simpl in Hg.
  - by apply elem_of_nil in Hg.
  - case_bool_decide as Hseen.
    + pose proof (dedup_filter_unseen _ _ _ Hg) as Hun.
      destruct (IH _ Hg) as (before & after & -> & Hb).
      exists (f :: before), after. split; [reflexivity|].
      constructor; [congruence | exact Hb].
    + apply elem_of_cons in Hg as [->|Hg].
      * exists [], rest. split; [reflexivity | constructor].
      * pose proof (dedup_filter_unseen _ _ _ Hg) as Hun.
        destruct (IH _ Hg) as (before & after & -> & Hb).
        exists (f :: before), after. split; [reflexivity|].
        constructor; [set_solver | exact Hb].
Qed.

Lemma dedup_filter_covers seen features f :
  f ∈ features → feature_key f ∉ seen →
  ∃ g, g ∈ dedup_filter seen features ∧ feature_key g = feature_key f.
Proof.
  revert seen. induction features as [|f0 rest IH]; intros seen Hf Hun.
  - by apply elem_of_nil in Hf.
  - simpl. case_bool_decide as Hseen.
    + apply elem_of_cons in Hf as [->|Hf]; [done|]. by apply IH.
    + destruct (decide (feature_key f0 = feature_key f)) as [Heq|Hne].
      * exists f0. split; [apply list_elem_of_here | exact Heq].
      * apply elem_of_cons in Hf as [->|Hf]; [done|].
        assert (Hun' : feature_key f ∉ ({[feature_key f0]} ∪ seen : gset string)).
        { rewrite elem_of_union, elem_of_singleton. by intros [?|?]. }
        destruct (IH _ Hf Hun') as (g & Hg & Hk).
        exists g. split; [by apply list_elem_of_further | exact Hk].
Qed.

End Requirements.

(** ** Gap records and quality profile read by the recommender *)

Inductive GapType := gap_todo | gap_stub | gap_mock | gap_placeholder | gap_incomplete.
Inductive GapPriority := prio_high | prio_medium | prio_low.

Record Gap := {
  gap_type : GapType;
  gap_file : string;
  gap_line : option nat;
  gap_description : string;
  gap_priority : option GapPriority
}.

Definition GapType_eqb (a b : GapType) : bool :=
  match a, b with
  | gap_todo, gap_todo | gap_stub, gap_stub | gap_mock, gap_mock
  | gap_placeholder, gap_placeholder | gap_incomplete, gap_incomplete => true
  | _, _ => false
  end.

Inductive DesignSystem :=
| ds_biokit | ds_material_ui | ds_ant_design | ds_chakra | ds_tailwind
| ds_other | ds_none.

Inductive PackageManager := npm | yarn | pnpm.

Record Metrics := {
  linesOfCode : Z;
  fileCount : Z;
  testCoverage : Z;
  componentCount : Z
}.

Record CodeQuality := {
  hasTests : bool;
  quality_hasTypescript : bool;
  designSystem : DesignSystem;
  quality_framework : string;
  packageManager : PackageManager;
  metrics : option Metrics
}.

(** ** Recommendation engine (recommender.ts) *)

Module Recommender.

Local Open Scope string_scope.

Definition is_biokit (d : DesignSystem) : bool :=
  match d with ds_biokit => true | _ => false end.

(** [if (cond) improvements.push(rule)] *)
Definition push_if (cond : bool) (rule : string) (improvements : list string)
  : list string :=
  if cond then (improvements ++ [rule])%list else improvements.

(** [self.indexOf(imp)], with -1 for an absent element. *)
Fixpoint indexOf (imp : string) (self : list string) : Z :=
  match self with
  | [] => -1
  | x :: self' =>
      if String.eqb x imp then 0
      else let i := indexOf imp self' in
           if (i =? -1)%Z then -1 else (i + 1)%Z
  end%Z.

(** [improvements.filter((imp, index, self) => self.indexOf(imp) === index)] *)
Definition filter_first_index (improvements : list string) : list string :=
  (List.filter
     (λ '(index, imp), (indexOf imp improvements =? Z.of_nat index)%Z)
     (imap (λ index imp, (index, imp)) improvements)).*2.

(** The rules of [recommendImprovements], applied in order once both
    analyses are known to be present. *)
Definition apply_rules (codeAnalysis : CodebaseAnalysis)
    (qualityAnalysis : CodeQuality) (gaps : list Gap) : list string :=
  let improvements : list string := [] in
      (* Check design system *)
      let improvements :=
        push_if (negb (is_biokit (designSystem qualityAnalysis)))
          "migrate-to-biokit-design-system: Replace current UI components with biokit-design-system"
          improvements in
      (* Check TypeScript *)
      let improvements :=
        push_if (negb (quality_hasTypescript qualityAnalysis))
          "add-typescript: Convert JavaScript to TypeScript for better type safety"
          improvements in
      (* Check tests *)
      let improvements :=
        if negb (hasTests qualityAnalysis) then
          push_if true "add-test-coverage: Add unit and integration tests"
            improvements
        else
          push_if
            (match metrics qualityAnalysis with
             | Some m => (testCoverage m <? 60)%Z
             | None => false
             end)
            "improve-test-coverage: Increase test coverage to at least 80%"
            improvements in
      (* Check for gaps *)
      let improvements :=
        push_if (10 <? length gaps)%nat
          "complete-todos: Address TODO comments and incomplete implementations"
          improvements in
      let mockDataGaps := List.filter (λ g, GapType_eqb (gap_type g) gap_mock) gaps in
      let improvements :=
        push_if (0 <? length mockDataGaps)%nat
          "replace-mock-data: Replace mock data with real API integrations"
          improvements in
      let stubGaps := List.filter (λ g, GapType_eqb (gap_type g) gap_stub) gaps in
      let improvements :=
        push_if (0 <? length stubGaps)%nat
          "implement-stubs: Complete stub function implementations"
          improvements in
      (* Check for error handling *)
      let improvements :=
        push_if (0 <? length (components codeAnalysis))%nat
          "add-error-boundaries: Add React error boundaries for better error handling"
          improvements in
      (* Check for accessibility *)
      let improvements :=
        push_if true "improve-accessibility: Ensure WCAG 2.1 AA compliance"
          improvements in
      (* Check for performance *)
      let improvements :=
        push_if (String.eqb (framework codeAnalysis) "nextjs")
          "optimize-performance: Add Next.js performance optimizations (Image, Font, etc.)"
          improvements in
      (* Check for environment variables *)
      let improvements :=
        push_if
          (match packageJson codeAnalysis with
           | Some pj => negb (scripts_env pj)
           | None => false
           end)
          "extract-env-variables: Extract hardcoded values to environment variables"
          improvements in
      (* Check for documentation *)
      let hasReadme :=
        match packageJson codeAnalysis with
        | Some pj => readme pj
        | None => false
        end in
      let improvements :=
        push_if (negb hasReadme)
          "add-documentation: Add README and API documentation" improvements in
      (* Check for CI/CD *)
      let improvements :=
        push_if true "add-ci-cd: Set up continuous integration and deployment"
          improvements in
      (* Check for linting *)
      let hasEslint :=
        match packageJson codeAnalysis with
        | Some pj => devDependencies_eslint pj
        | None => false
        end in
      let improvements :=
        push_if (negb hasEslint)
          "add-linting: Add ESLint and Prettier for code quality" improvements in
      (* Check for SEO *)
      let improvements :=
        push_if (String.eqb (framework codeAnalysis) "nextjs"
                 || String.eqb (framework codeAnalysis) "gatsby")
          "improve-seo: Add SEO optimizations and meta tags" improvements in
      (* Check for loading states *)
      let improvements :=
        push_if true
          "add-loading-states: Add loading indicators for async operations"
          improvements in
      (* Check for form validation *)
      let improvements :=
        push_if (existsb (λ c, Js.includes "form" c || Js.includes "Form" c)
                   (components codeAnalysis))
          "add-form-validation: Add client and server-side form validation"
          improvements in
      improvements.

Definition recommendImprovements (codeAnalysis : option CodebaseAnalysis)
    (qualityAnalysis : option CodeQuality) (gaps : list Gap) : list string :=
  match codeAnalysis, qualityAnalysis with
  | None, _ | _, None => []
  | Some codeAnalysis, Some qualityAnalysis =>
      filter_first_index (apply_rules codeAnalysis qualityAnalysis gaps)
  end.

(** Every recommendation the rules can push, in rule order. *)
Definition rule_table : list string :=
  [ "migrate-to-biokit-design-system: Replace current UI components with biokit-design-system";
    "add-typescript: Convert JavaScript to TypeScript for better type safety";
    "add-test-coverage: Add unit and integration tests";
    "improve-test-coverage: Increase test coverage to at least 80%";
    "complete-todos: Address TODO comments and incomplete implementations";
    "replace-mock-data: Replace mock data with real API integrations";
    "implement-stubs: Complete stub function implementations";
    "add-error-boundaries: Add React error boundaries for better error handling";
    "improve-accessibility: Ensure WCAG 2.1 AA compliance";
    "optimize-performance: Add Next.js performance optimizations (Image, Font, etc.)";
    "extract-env-variables: Extract hardcoded values to environment variables";
    "add-documentation: Add README and API documentation";
    "add-ci-cd: Set up continuous integration and deployment";
    "add-linting: Add ESLint and Prettier for code quality";
    "improve-seo: Add SEO optimizations and meta tags";
    "add-loading-states: Add loading indicators for async operations";
    "add-form-validation: Add client and server-side form validation" ].

(** The dedup key of a recommendation: the text before its first colon
    ([improvement.split(':')[0]]). *)
Fixpoint recommendation_key (imp : string) : string :=
  match imp with
  | EmptyString => EmptyString
  | String c rest =>
      if Ascii.eqb c ":" then EmptyString else String c (recommendation_key rest)
  end.

(** A profile and gaps to run the rules on. *)
Definition plain_quality : CodeQuality :=
  {| hasTests := true; quality_hasTypescript := true; designSystem := ds_biokit;
     quality_framework := "Next.js"; packageManager := npm; metrics := None |}.

Definition todo_gap (n : nat) : Gap :=
  {| gap_type := gap_todo; gap_file := "a.ts"; gap_line := Some n;
     gap_description := "later"; gap_priority := Some prio_medium |}.

Lemma push_if_sublist cond rule improvements table :
  improvements `sublist_of` table →
  push_if cond rule improvements `sublist_of` (table ++ [rule])%list.
Proof.
  intros H. unfold push_if. destruct cond.
  - apply sublist_app; [exact H | reflexivity].
  - apply sublist_inserts_r, H.
Qed.

(** Peels the last rule off a goal [push_if _ _ _ `sublist_of` table]. *)
Ltac rule_step :=
  lazymatch goal with
  | |- push_if _ _ _ `sublist_of` ?table =>
      let n := eval vm_compute in (pred (length table)) in
      apply (push_if_sublist _ _ _ (take n rule_table))
  end.

(** The rules push a subsequence of the rule table. *)
Lemma apply_rules_sublist codeAnalysis qualityAnalysis gaps :
  apply_rules codeAnalysis qualityAnalysis gaps `sublist_of` rule_table.
Proof.
  unfold apply_rules.
  do 13 rule_step.
  assert (Hhead :
    push_if (negb (quality_hasTypescript qualityAnalysis))
      "add-typescript: Convert JavaScript to TypeScript for better type safety"
      (push_if (negb (is_biokit (designSystem qualityAnalysis)))
         "migrate-to-biokit-design-system: Replace current UI components with biokit-design-system"
         []) `sublist_of` take 2 rule_table).
  { do 2 rule_step. apply sublist_nil_l. }
  destruct (hasTests qualityAnalysis); cbn [negb].
  - rule_step. apply (sublist_inserts_r [_] _ (take 2 rule_table)), Hhead.
  - apply (sublist_inserts_r [_] _ (take 3 rule_table)). rule_step. exact Hhead.
Qed.

Lemma List_filter_sublist {A} (p : A → bool) (l : list A) :
  List.filter p l `sublist_of` l.
Proof.
  induction l as [|x l IH]; simpl; [constructor|].
  destruct (p x); [by apply sublist_skip | by apply sublist_cons].
Qed.

Lemma imap_pair_snd {A} (g : nat → nat) (l : list A) :
  (imap (λ index x, (g index, x)) l).*2 = l.
Proof.
  revert g. induction l as [|x l IH]; intros g; [reflexivity|].
  rewrite imap_cons, fmap_cons. simpl. f_equal. apply (IH (g ∘ S)).
Qed.

(** The final filter only drops entries. *)
Lemma filter_first_index_sublist improvements :
  filter_first_index improvements `sublist_of` improvements.
Proof.
  unfold filter_first_index.
  etrans; [apply fmap_sublist, List_filter_sublist|].
  pose proof (imap_pair_snd id improvements) as Hsnd. simpl in Hsnd.
  by rewrite Hsnd.
Qed.

Lemma rule_table_keys_NoDup : NoDup (recommendation_key <$> rule_table).
Proof.
  apply (bool_decide_unpack (NoDup (recommendation_key <$> rule_table))).
  vm_compute. exact I.
Qed.

Lemma recommendImprovements_sublist codeAnalysis qualityAnalysis gaps :
  recommendImprovements codeAnalysis qualityAnalysis gaps `sublist_of` rule_table.
Proof.
  unfold recommendImprovements.
  destruct codeAnalysis as [ca|], qualityAnalysis as [qa|];
    try apply sublist_nil_l.
  etrans; [apply filter_first_index_sublist | apply apply_rules_sublist].
Qed.


(** C10: when either analysis is missing the recommender returns the empty
    list, whatever the gaps: no rule is evaluated, not even the
    unconditional ones. *)
Theorem recommendImprovements_null_inputs :
  ∀ (codeAnalysis : option CodebaseAnalysis)
    (qualityAnalysis : option CodeQuality) (gaps : list Gap),
    codeAnalysis = None ∨ qualityAnalysis = None →
    recommendImprovements codeAnalysis qualityAnalysis gaps = [].
Proof.
  intros codeAnalysis qualityAnalysis gaps [-> | ->]; [reflexivity|].
  by destruct codeAnalysis.
Qed.

Example filter_first_index_drops_repeats :
  filter_first_index ["a"; "b"; "a"; "c"; "b"] = ["a"; "b"; "c"].
Proof. vm_compute. reflexivity. Qed.

Example recommendImprovements_baseline :
  recommendImprovements
    (Some {| framework := "react"; hasTypescript := true; components := [];
             pages := []; apis := []; styles := []; tests := [];
             entryPoint := None;
             packageJson := Some {| scripts_env := true; readme := true;
                                    devDependencies_eslint := true |} |})
    (Some plain_quality) []
  = [ "improve-accessibility: Ensure WCAG 2.1 AA compliance";
      "add-ci-cd: Set up continuous integration and deployment";
      "add-loading-states: Add loading indicators for async operations" ].
Proof. vm_compute. reflexivity. Qed.

Lemma recommendImprovements_null_inputs_witness :
  recommendImprovements None (Some plain_quality) (map todo_gap (seq 1 11)) = [].
Proof.
  apply (recommendImprovements_null_inputs None (Some plain_quality)
           (map todo_gap (seq 1 11))).
  left. reflexivity.
Defined.

End Recommender.

(** ** Backtracking regular expressions, as far as the gap detector needs

    Patterns are matched the way JavaScript does: alternatives left to
    right, quantifiers greedy, the first successful path wins. Characters
    are the ASCII range. *)

Module Regex.

Inductive regex :=
| Eps
| Chr (accept : ascii → bool)
| Seq (r1 r2 : regex)
| Alt (r1 r2 : regex)
| Star (r : regex)
| Group (index : nat) (r : regex).

(** Capture groups recorded so far, the most recent binding first. *)
Definition captures := list (nat * string).

Definition capture (index : nat) (caps : captures) : string :=
  match list_find (λ p, p.1 = index) caps with
  | Some (_, (_, s)) => s
  | None => EmptyString
  end.

Definition cont := string → captures → option captures.

(** Greedy iteration: try one more round of [body] that consumes at least
    one character, and fall back to the continuation. *)
Fixpoint star_loop (body : string → captures → cont → option captures) (k : cont)
    (fuel : nat) (s : string) (caps : captures) : option captures :=
  match fuel with
  | O => k s caps
  | S fuel =>
      match body s caps
              (λ s' caps',
                 if (String.length s' <? String.length s)%nat
                 then star_loop body k fuel s' caps' else None) with
      | Some result => Some result
      | None => k s caps
      end
  end.

Fixpoint run (r : regex) (s : string) (caps : captures) (k : cont)
  : option captures :=
  match r with
  | Eps => k s caps
  | Chr accept =>
      match s with
      | String c s' => if accept c then k s' caps else None
      | EmptyString => None
      end
  | Seq r1 r2 => run r1 s caps (λ s' caps', run r2 s' caps' k)
  | Alt r1 r2 =>
      match run r1 s caps k with
      | Some result => Some result
      | None => run r2 s caps k
      end
  | Star r1 => star_loop (run r1) k (S (String.length s)) s caps
  | Group index r1 =>
      run r1 s caps
        (λ s' caps',
           k s' ((index,
                  String.substring 0 (String.length s - String.length s') s)
                 :: caps'))
  end.

(** [s.match(r)] for a pattern without the global flag: the leftmost
    position at which the pattern matches. *)
Fixpoint exec (r : regex) (s : string) : option captures :=
  match run r s [] (λ _ caps, Some caps) with
  | Some caps => Some caps
  | None =>
      match s with
      | EmptyString => None
      | String _ s' => exec r s'
      end
  end.

(** Derived forms. *)
Definition Opt (r : regex) : regex := Alt r Eps.
Definition Plus (r : regex) : regex := Seq r (Star r).

(** A literal character under the [i] flag. *)
Definition ci (x : ascii) : regex :=
  Chr (λ c, Ascii.eqb (Js.lower_ascii c) (Js.lower_ascii x)).

Fixpoint lit_ci (word : string) : regex :=
  match word with
  | EmptyString => Eps
  | String x word' => Seq (ci x) (lit_ci word')
  end.

(** [\s] *)
Definition is_space (c : ascii) : bool :=
  let n := nat_of_ascii c in
  ((9 <=? n) && (n <=? 13) || (n =? 32))%nat.

(** [.]: anything but a line terminator. *)
Definition is_dot (c : ascii) : bool :=
  let n := nat_of_ascii c in
  negb ((n =? 10) || (n =? 13))%nat.

End Regex.

(** ** Gap detector (analyzers/gaps.ts, findTODOs) *)

Module Gaps.

Import Regex.

Local Open Scope string_scope.

(** [TODO|FIXME|HACK|XXX|NOTE|OPTIMIZE|REFACTOR], under the [i] flag. *)
Definition markers : regex :=
  Alt (lit_ci "TODO") (Alt (lit_ci "FIXME") (Alt (lit_ci "HACK")
    (Alt (lit_ci "XXX") (Alt (lit_ci "NOTE") (Alt (lit_ci "OPTIMIZE")
      (lit_ci "REFACTOR")))))).

(** [:?\s*(.+)], what follows the marker group. *)
Definition after_marker : regex :=
  Seq (Opt (ci ":")) (Seq (Star (Chr is_space)) (Group 2 (Plus (Chr is_dot)))).

(** [\s*(TODO|...)] and the rest, what follows the two slashes. *)
Definition after_slashes : regex :=
  Seq (Star (Chr is_space)) (Seq (Group 1 markers) after_marker).

(** [/\/\/\s*(TODO|FIXME|HACK|XXX|NOTE|OPTIMIZE|REFACTOR):?\s*(.+)/i] *)
Definition todoPattern : regex := Seq (lit_ci "//") after_slashes.

Definition upper_ascii (c : ascii) : ascii :=
  let n := nat_of_ascii c in
  if (97 <=? n)%nat && (n <=? 122)%nat then ascii_of_nat (n - 32) else c.

Fixpoint toUpperCase (s : string) : string :=
  match s with
  | EmptyString => EmptyString
  | String c s' => String (upper_ascii c) (toUpperCase s')
  end.

Fixpoint trimStart (s : string) : string :=
  match s with
  | String c s' => if is_space c then trimStart s' else s
  | EmptyString => EmptyString
  end.

Fixpoint trimEnd (s : string) : string :=
  match s with
  | String c s' =>
      match trimEnd s' with
      | EmptyString => if is_space c then EmptyString else String c EmptyString
      | t => String c t
      end
  | EmptyString => EmptyString
  end.

Definition trim (s : string) : string := trimEnd (trimStart s).

(** The gaps of one line; [index] counts lines from zero. *)
Definition todo_of_line (file : string) (index : nat) (line : string) : list Gap :=
  match exec todoPattern line with
  | Some match_ =>
      [ {| gap_type := gap_todo;
           gap_file := file;
           gap_line := Some (index + 1)%nat;
           gap_description := trim (capture 2 match_);
           gap_priority :=
             Some (if String.eqb (toUpperCase (capture 1 match_)) "FIXME"
                   then prio_high else prio_medium) |} ]
  | None => []
  end.

Definition findTODOs (file : string) (lines : list string) : list Gap :=
  concat (imap (todo_of_line file) lines).

(** Shapes of lines around a marker comment. *)
Fixpoint no_slash (s : string) : bool :=
  match s with
  | EmptyString => true
  | String c s' => negb (Ascii.eqb c "/") && no_slash s'
  end.

Fixpoint all_space (s : string) : bool :=
  match s with
  | EmptyString => true
  | String c s' => is_space c && all_space s'
  end.

(** One of the seven markers, in any mix of upper and lower case. *)
Definition is_marker (s : string) : bool :=
  existsb (String.eqb (Js.toLowerCase s))
    ["todo"; "fixme"; "hack"; "xxx"; "note"; "optimize"; "refactor"].

(** The continuation that reports the captures of a complete match. *)
Definition accept : cont := λ _ caps, Some caps.

(** Greedy [\s*] over a run of spaces [w], longest first. *)
Fixpoint greedy_back (k : cont) (w rest : string) (caps : captures)
  : option captures :=
  match w with
  | EmptyString => k rest caps
  | String c w' =>
      match greedy_back k w' rest caps with
      | Some result => Some result
      | None => k (String c w' ++ rest) caps
      end
  end.

Example findTODOs_fixme :
  findTODOs "a.ts" ["const x = 1;"; "// FIXME: handle null case"]
  = [ {| gap_type := gap_todo; gap_file := "a.ts"; gap_line := Some 2%nat;
         gap_description := "handle null case";
         gap_priority := Some prio_high |} ].
Proof. vm_compute. reflexivity. Qed.

Example findTODOs_lowercase :
  findTODOs "a.ts" ["  foo(); //todo:   tidy up  "]
  = [ {| gap_type := gap_todo; gap_file := "a.ts"; gap_line := Some 1%nat;
         gap_description := "tidy up";
         gap_priority := Some prio_medium |} ].
Proof. vm_compute. reflexivity. Qed.

Example findTODOs_bare : findTODOs "a.ts" ["// TODO"] = [].
Proof. vm_compute. reflexivity. Qed.

(** *** String facts *)

Lemma length_append (a b : string) :
  String.length (a ++ b) = (String.length a + String.length b)%nat.
Proof. induction a as [|c a IH]; simpl; [reflexivity | by rewrite IH]. Qed.

Lemma substring_append_prefix (a b : string) :
  String.substring 0 (String.length (a ++ b) - String.length b) (a ++ b) = a.
Proof.
  rewrite length_append.
  replace (String.length a + String.length b - String.length b)%nat
    with (String.length a) by lia.
  induction a as [|c a IH]; simpl.
  - destruct b; reflexivity.
  - by rewrite IH.
Qed.

Lemma lower_ascii_slash c : Js.lower_ascii c = "/"%char → c = "/"%char.
Proof.
  destruct c as [[] [] [] [] [] [] [] []]; vm_compute; congruence.
Qed.

Lemma is_space_not_letter c :
  is_space c = true →
  Js.lower_ascii c = c ∧ c ≠ "/"%char
  ∧ Forall (λ x, c ≠ x)
      ["t"; "f"; "h"; "x"; "n"; "o"; "r"]%char.
Proof.
  destruct c as [[] [] [] [] [] [] [] []]; vm_compute; intros H;
    try discriminate H; repeat split; try congruence;
    repeat constructor; congruence.
Qed.

Lemma toLowerCase_cons_inv M x word :
  Js.toLowerCase M = String x word →
  ∃ c M', M = String c M' ∧ Js.lower_ascii c = x ∧ Js.toLowerCase M' = word.
Proof.
  destruct M as [|c M']; simpl; [discriminate|].
  intros H. injection H as Hc HM. by exists c, M'.
Qed.

(** *** The matcher on literals, markers and runs of spaces *)

Lemma run_Alt r1 r2 s caps k :
  run (Alt r1 r2) s caps k
  = match run r1 s caps k with
    | Some result => Some result
    | None => run r2 s caps k
    end.
Proof. reflexivity. Qed.

Lemma run_Seq r1 r2 s caps k :
  run (Seq r1 r2) s caps k = run r1 s caps (λ s' caps', run r2 s' caps' k).
Proof. reflexivity. Qed.

Lemma run_lit_ci_hit word M rest caps k :
  Js.toLowerCase M = Js.toLowerCase word →
  run (lit_ci word) (M ++ rest) caps k = k rest caps.
Proof.
  revert M. induction word as [|x word IH]; intros M HM.
  - destruct M; [reflexivity | discriminate].
  - apply toLowerCase_cons_inv in HM as (c & M' & -> & Hc & HM').
    simpl. rewrite Hc, Ascii.eqb_refl. by apply IH.
Qed.

Lemma run_lit_ci_head_miss x word c s caps k :
  Js.lower_ascii c ≠ Js.lower_ascii x →
  run (lit_ci (String x word)) (String c s) caps k = None.
Proof.
  intros Hne. simpl. by destruct (Ascii.eqb_spec (Js.lower_ascii c) (Js.lower_ascii x)).
Qed.

(** Tries the alternatives of [markers] one after the other on a string
    whose first character [c] is known through [Hc]. *)
Ltac walk_markers Hc :=
  unfold markers;
  repeat first
    [ rewrite run_Alt
    | match goal with
      | |- context [run (lit_ci (String ?x ?word)) (String ?c ?s) ?caps ?k] =>
          rewrite (run_lit_ci_head_miss x word c s caps k)
            by (rewrite Hc; vm_compute; congruence)
      end ].

Lemma run_markers_space c s caps k :
  is_space c = true → run (Group 1 markers) (String c s) caps k = None.
Proof.
  intros Hsp. apply is_space_not_letter in Hsp as (Hlow & _ & Hletters).
  repeat match goal with
         | H : Forall _ (_ :: _) |- _ => apply Forall_cons in H as [? H]
         end.
  cbn [run]. walk_markers Hlow. reflexivity.
Qed.

Lemma is_marker_cases M :
  is_marker M = true →
  ∃ c M' x word,
    M = String c M' ∧ Js.lower_ascii c = x
    ∧ Js.toLowerCase M = String x word
    ∧ String x word
      ∈ ["todo"; "fixme"; "hack"; "xxx"; "note"; "optimize"; "refactor"].
Proof.
  unfold is_marker. intros H. apply existsb_exists in H as (w & Hin & Heq).
  apply String.eqb_eq in Heq. apply list_elem_of_In in Hin.
  assert (∃ x word, w = String x word) as (x & word & ->).
  { repeat (apply elem_of_cons in Hin as [->|Hin]; [by eexists _, _|]).
    by apply elem_of_nil in Hin. }
  pose proof Heq as Heq'.
  apply toLowerCase_cons_inv in Heq as (c & M' & -> & Hc & HM').
  by exists c, M', x, word.
Qed.

(** A marker is consumed whole, recorded as group 1, and no other
    alternative gets a second chance afterwards. *)
Lemma run_markers_hit M rest caps k :
  is_marker M = true →
  run (Group 1 markers) (M ++ rest) caps k = k rest ((1, M) :: caps).
Proof.
  intros HM. cbn [run].
  match goal with |- run _ _ _ ?kk = _ => set (k' := kk) end.
  assert (Hk' : k' rest caps = k rest ((1, M) :: caps)).
  { subst k'. cbv beta. by rewrite substring_append_prefix. }
  rewrite <- Hk'. clear Hk'. generalize k'. clear k'. intros k'.
  apply is_marker_cases in HM as (c & M' & x & word & -> & Hc & Hlow & Hin).
  repeat (apply elem_of_cons in Hin as [Hw|Hin];
          [injection Hw as -> ->|]); [..|by apply elem_of_nil in Hin].
  all: change (String c M' ++ rest) with (String c (M' ++ rest));
    walk_markers Hc;
    change (String c (M' ++ rest)) with (String c M' ++ rest);
    rewrite run_lit_ci_hit by (rewrite Hlow; vm_compute; reflexivity);
    by destruct (k' rest caps).
Qed.

Lemma greedy_back_hit k w rest caps result :
  k rest caps = Some result → greedy_back k w rest caps = Some result.
Proof. intros Hk. induction w as [|c w IH]; simpl; [exact Hk | by rewrite IH]. Qed.

Lemma greedy_back_none k w rest caps :
  k rest caps = None →
  (∀ c s, is_space c = true → k (String c s) caps = None) →
  all_space w = true →
  greedy_back k w rest caps = None.
Proof.
  intros Hk Hsp. induction w as [|c w IH]; simpl; [done|].
  intros [Hc Hw]%andb_prop. rewrite IH by exact Hw. by apply Hsp.
Qed.

(** [\s*] in front of something that does not start with a space. *)
Lemma star_space_greedy k w rest caps fuel :
  all_space w = true →
  match rest with String c _ => is_space c = false | EmptyString => True end →
  (String.length (w ++ rest) < fuel)%nat →
  star_loop (run (Chr is_space)) k fuel (w ++ rest) caps
  = greedy_back k w rest caps.
Proof.
  intros Hw Hrest. revert fuel Hw.
  induction w as [|c w IH]; intros fuel Hw Hfuel.
  - destruct fuel as [|fuel]; [simpl in Hfuel; lia|].
    change ("" ++ rest) with rest. cbn [star_loop greedy_back run].
    destruct rest as [|c rest]; [reflexivity|]. by rewrite Hrest.
  - destruct fuel as [|fuel]; [simpl in Hfuel; lia|].
    simpl in Hw. apply andb_prop in Hw as [Hc Hw].
    cbn [star_loop]. change (String c w ++ rest) with (String c (w ++ rest)).
    cbn [run]. rewrite Hc.
    destruct (Nat.ltb_spec (String.length (w ++ rest))
                (String.length (String c (w ++ rest)))) as [_|Hge];
      [|simpl in Hge; lia].
    rewrite IH; [reflexivity | exact Hw | simpl in Hfuel; lia].
Qed.

(** *** Where a match can start *)

Lemma append_cons c (a b : string) : String c a ++ b = String c (a ++ b).
Proof. reflexivity. Qed.

Lemma append_empty_r (s : string) : s ++ "" = s.
Proof.
  induction s as [|c s IH]; [reflexivity | by rewrite append_cons, IH].
Qed.

Lemma no_slash_append a b : no_slash (a ++ b) = no_slash a && no_slash b.
Proof.
  induction a as [|c a IH]; [reflexivity|].
  rewrite append_cons. simpl. rewrite IH. by rewrite andb_assoc.
Qed.

Lemma all_space_no_slash w : all_space w = true → no_slash w = true.
Proof.
  induction w as [|c w IH]; simpl; [done|].
  intros [Hc Hw]%andb_prop. rewrite (IH Hw), andb_true_r.
  apply is_space_not_letter in Hc as (_ & Hne & _).
  by destruct (Ascii.eqb_spec c "/").
Qed.

Lemma no_slash_toLowerCase s :
  no_slash (Js.toLowerCase s) = true → no_slash s = true.
Proof.
  induction s as [|c s IH]; simpl; [done|].
  intros [Hc Hs]%andb_prop. rewrite (IH Hs), andb_true_r.
  destruct (Ascii.eqb_spec c "/") as [->|_]; [discriminate Hc | reflexivity].
Qed.

Lemma is_marker_no_slash M : is_marker M = true → no_slash M = true.
Proof.
  intros HM. apply no_slash_toLowerCase.
  apply is_marker_cases in HM as (c & M' & x & word & _ & _ & -> & Hin).
  repeat (apply elem_of_cons in Hin as [Hw|Hin];
          [injection Hw as -> ->; reflexivity|]).
  by apply elem_of_nil in Hin.
Qed.

Lemma is_marker_head_not_space M :
  is_marker M = true →
  match M with String c _ => is_space c = false | EmptyString => True end.
Proof.
  intros HM.
  apply is_marker_cases in HM as (c & M' & x & word & -> & Hc & _ & Hin).
  destruct (is_space c) eqn:Hsp; [exfalso | reflexivity].
  apply is_space_not_letter in Hsp as (Hlow & _ & Hletters).
  rewrite Hlow in Hc. subst x.
  repeat match goal with
         | H : Forall _ (_ :: _) |- _ => apply Forall_cons in H as [? H]
         end.
  repeat (apply elem_of_cons in Hin as [Hw|Hin];
          [injection Hw as ? _; congruence|]).
  by apply elem_of_nil in Hin.
Qed.

Lemma run_todo_other_head c s :
  c ≠ "/"%char → run todoPattern (String c s) [] accept = None.
Proof.
  intros Hc. unfold todoPattern. rewrite run_Seq.
  apply run_lit_ci_head_miss. intros Heq. by apply Hc, lower_ascii_slash.
Qed.

Lemma run_todo_single_slash s :
  no_slash s = true → run todoPattern (String "/" s) [] accept = None.
Proof.
  intros Hs. destruct s as [|c s]; [reflexivity|].
  simpl in Hs. apply andb_prop in Hs as [Hc _].
  unfold todoPattern. rewrite run_Seq.
  change (lit_ci "//") with (Seq (ci "/") (lit_ci "/")).
  rewrite run_Seq. cbn [run ci]. rewrite Ascii.eqb_refl.
  apply run_lit_ci_head_miss. intros Heq. apply lower_ascii_slash in Heq.
  subst c. discriminate Hc.
Qed.

Lemma exec_step r c s :
  run r (String c s) [] accept = None → exec r (String c s) = exec r s.
Proof. intros H. simpl. unfold accept in H. by rewrite H. Qed.

(** Without a slash there is no comment and no match. *)
Lemma exec_no_slash s : no_slash s = true → exec todoPattern s = None.
Proof.
  induction s as [|c s IH]; [reflexivity|].
  simpl no_slash. intros [Hc Hs]%andb_prop.
  rewrite exec_step; [by apply IH|].
  apply run_todo_other_head. intros ->. discriminate Hc.
Qed.

(** Text without a slash in front of the comment is skipped. *)
Lemma exec_skip_prefix p s :
  no_slash p = true → exec todoPattern (p ++ s) = exec todoPattern s.
Proof.
  induction p as [|c p IH]; [reflexivity|].
  simpl no_slash. intros [Hc Hp]%andb_prop.
  change (String c p ++ s) with (String c (p ++ s)).
  rewrite exec_step; [by apply IH|].
  apply run_todo_other_head. intros ->. discriminate Hc.
Qed.

(** At the two slashes, the pattern hands over to the marker after a
    greedy run of spaces. *)
Lemma run_todo_at_comment w rest :
  all_space w = true →
  match rest with String c _ => is_space c = false | EmptyString => True end →
  run todoPattern ("//" ++ w ++ rest) [] accept
  = greedy_back
      (λ s' caps', run (Seq (Group 1 markers) after_marker) s' caps' accept)
      w rest [].
Proof.
  intros Hw Hrest. unfold todoPattern. rewrite run_Seq.
  rewrite run_lit_ci_hit by reflexivity.
  unfold after_slashes. rewrite run_Seq. cbn [run].
  apply star_space_greedy; [exact Hw | exact Hrest | lia].
Qed.

Lemma exec_bare_marker p w M :
  no_slash p = true → all_space w = true → is_marker M = true →
  exec todoPattern (p ++ "//" ++ w ++ M) = None.
Proof.
  intros Hp Hw HM. rewrite exec_skip_prefix by exact Hp.
  assert (Hrest : no_slash (w ++ M) = true).
  { by rewrite no_slash_append, all_space_no_slash, is_marker_no_slash. }
  change ("//" ++ w ++ M) with (String "/" (String "/" (w ++ M))).
  rewrite exec_step.
  - rewrite exec_step; [by apply exec_no_slash|].
    by apply run_todo_single_slash.
  - change (String "/" (String "/" (w ++ M))) with ("//" ++ w ++ M).
    rewrite run_todo_at_comment
      by (try exact Hw; by apply is_marker_head_not_space).
    apply greedy_back_none; [| |exact Hw].
    + rewrite run_Seq. rewrite <- (append_empty_r M) at 1.
      rewrite run_markers_hit by exact HM. reflexivity.
    + intros c s Hc. rewrite run_Seq. by apply run_markers_space.
Qed.

Lemma exec_marker_colon p w M :
  no_slash p = true → all_space w = true → is_marker M = true →
  exec todoPattern (p ++ "//" ++ w ++ M ++ ":") = Some [(2, ":"); (1, M)].
Proof.
  intros Hp Hw HM. rewrite exec_skip_prefix by exact Hp.
  change ("//" ++ w ++ M ++ ":") with (String "/" (String "/" (w ++ M ++ ":"))).
  cbn [exec].
  change (String "/" (String "/" (w ++ M ++ ":"))) with ("//" ++ w ++ M ++ ":").
  change (λ (_ : string) (caps : captures), Some caps) with accept.
  rewrite run_todo_at_comment.
  - erewrite greedy_back_hit; [reflexivity|].
    rewrite run_Seq, run_markers_hit by exact HM. reflexivity.
  - exact Hw.
  - pose proof (is_marker_head_not_space M HM) as Hhead.
    destruct M as [|c M']; [discriminate HM | exact Hhead].
Qed.

(** C9 (as amended): a line that ends right after the marker, whatever
    precedes the comment and however the marker is cased, produces no gap;
    when a colon follows the marker at the end of the line, the optional
    colon of the pattern is given up and the colon itself becomes the
    description, so one gap with description ":" is reported. *)
Theorem todo_of_line_bare_marker :
  ∀ (file : string) (index : nat) (p w M : string),
    no_slash p = true → all_space w = true → is_marker M = true →
    todo_of_line file index (p ++ "//" ++ w ++ M) = []
    ∧ todo_of_line file index (p ++ "//" ++ w ++ M ++ ":")
      = [ {| gap_type := gap_todo;
             gap_file := file;
             gap_line := Some (index + 1)%nat;
             gap_description := ":";
             gap_priority :=
               Some (if String.eqb (toUpperCase M) "FIXME"
                     then prio_high else prio_medium) |} ].
Proof.
  intros file index p w M Hp Hw HM. unfold todo_of_line. split.
  - by rewrite exec_bare_marker.
  - by rewrite exec_marker_colon.
Qed.

Lemma todo_of_line_bare_marker_witness :
  todo_of_line "app.ts" 11 ("  run(); " ++ "//" ++ " " ++ "ToDo") = []
  ∧ todo_of_line "app.ts" 11 ("  run(); " ++ "//" ++ " " ++ "ToDo" ++ ":")
    = [ {| gap_type := gap_todo;
           gap_file := "app.ts";
           gap_line := Some (11 + 1)%nat;
           gap_description := ":";
           gap_priority :=
             Some (if String.eqb (toUpperCase "ToDo") "FIXME"
                   then prio_high else prio_medium) |} ].
Proof.
  apply (todo_of_line_bare_marker "app.ts" 11 "  run(); " " " "ToDo");
    reflexivity.
Defined.

(** C9 (as stated) fails on a marker followed by a colon: the line
    "// FIXME:" yields a gap, with the colon as its description. *)
Lemma findTODOs_bare_colon_reported :
  findTODOs "a.ts" ["// FIXME:"]
  = [ {| gap_type := gap_todo; gap_file := "a.ts"; gap_line := Some 1%nat;
         gap_description := ":";
         gap_priority := Some prio_high |} ]
  ∧ findTODOs "a.ts" ["// FIXME:"] ≠ [].
Proof. vm_compute. split; [reflexivity | discriminate]. Qed.

End Gaps.

(** ** More on the budgeting step: order, completeness, greediness *)

Module SelectionFacts.

Import ContextSelector.

(** Descending by score. *)
Definition score_desc (a b : ScoredFile) : Prop := (score b ≤ score a)%Z.

(** The files of one score, in the order they have in [l]. *)
Definition of_score (v : Z) (l : list ScoredFile) : list ScoredFile :=
  List.filter (λ f, (score f =? v)%Z) l.

Lemma insert_by_score_sorted x l :
  StronglySorted score_desc l → StronglySorted score_desc (insert_by_score x l).
Proof.
  induction l as [|y l IH]; intros Hs; simpl.
  - repeat constructor.
  - apply StronglySorted_inv in Hs as [Hl Hy].
    destruct (Z.ltb_spec (score x) (score y)) as [Hlt|Hge].
    + constructor; [by apply IH|].
      rewrite insert_by_score_perm. constructor; [unfold score_desc; lia | exact Hy].
    + constructor; [by constructor|].
      constructor; [exact Hge|].
      eapply Forall_impl; [exact Hy|]. unfold score_desc. intros; lia.
Qed.

Lemma sort_by_score_sorted l : StronglySorted score_desc (sort_by_score l).
Proof.
  induction l as [|x l IH]; simpl; [constructor | by apply insert_by_score_sorted].
Qed.

Lemma insert_by_score_stable v x l :
  of_score v (insert_by_score x l) = of_score v (x :: l).
Proof.
  induction l as [|y l IH]; [reflexivity|]. simpl insert_by_score.
  destruct (Z.ltb_spec (score x) (score y)) as [Hlt|Hge]; [|reflexivity].
  unfold of_score in *. simpl in *. rewrite IH.
  destruct (Z.eqb_spec (score x) v), (Z.eqb_spec (score y) v); try reflexivity; lia.
Qed.

Lemma sort_by_score_stable v l : of_score v (sort_by_score l) = of_score v l.
Proof.
  induction l as [|x l IH]; [reflexivity|]. simpl sort_by_score.
  rewrite insert_by_score_stable. unfold of_score in *. simpl. by rewrite IH.
Qed.

Section Facts.

Variable tokenizer_count : string → Z.
Variable truncateToTokens : ScoredFile → Z → ScoredFile.

Local Abbreviation budget_loop := (budget_loop tokenizer_count truncateToTokens).
Local Abbreviation selectWithinBudget :=
  (selectWithinBudget tokenizer_count truncateToTokens).
Local Abbreviation total_tokens := (total_tokens tokenizer_count).

(** After the first accepted file the loop appends a subsequence of what
    is left of the sorted candidates. *)
Lemma budget_loop_appends maxTok sorted selected cur :
  selected ≠ [] →
  ∃ more, budget_loop maxTok sorted selected cur = selected ++ more
          ∧ more `sublist_of` sorted.
Proof.
  revert selected cur. induction sorted as [|f rest IH]; intros selected cur Hne.
  - exists []. split; [by rewrite app_nil_r | constructor].
  - simpl. destruct (_ <=? _)%Z.
    + destruct (IH (selected ++ [f]) (cur + tokenizer_count (content (file f)))%Z)
        as (more & -> & Hsub).
      { intros Habs. by apply app_eq_nil in Habs as [_ ?]. }
      exists (f :: more). split; [by rewrite <- app_assoc | by apply sublist_skip].
    + destruct selected as [|s0 sel]; [done|]. simpl.
      destruct (IH (s0 :: sel) cur Hne) as (more & -> & Hsub).
      exists more. split; [reflexivity | by apply sublist_cons].
Qed.

(** While everything still fits, everything is accepted. *)
Lemma budget_loop_all_fit maxTok sorted selected cur :
  (∀ s, 0 ≤ tokenizer_count s)%Z →
  (cur + total_tokens sorted ≤ maxTok)%Z →
  budget_loop maxTok sorted selected cur = selected ++ sorted.
Proof.
  intros Hpos. revert selected cur.
  induction sorted as [|f rest IH]; intros selected cur Hfit; simpl.
  - by rewrite app_nil_r.
  - simpl in Hfit.
    assert (0 ≤ total_tokens rest)%Z.
    { clear -Hpos. induction rest as [|g rest IH]; simpl; [lia|].
      specialize (Hpos (content (file g))). lia. }
    destruct (Z.leb_spec (cur + tokenizer_count (content (file f))) maxTok)
      as [_|Hover]; [|lia].
    rewrite IH by lia. by rewrite <- app_assoc.
Qed.

Lemma total_tokens_perm l1 l2 : l1 ≡ₚ l2 → total_tokens l1 = total_tokens l2.
Proof.
  induction 1 as [|x l1 l2 _ IH|x y l|l1 l2 l3 _ IH1 _ IH2]; simpl; lia.
Qed.

Lemma total_tokens_nonneg l :
  (∀ s, 0 ≤ tokenizer_count s)%Z → (0 ≤ total_tokens l)%Z.
Proof.
  intros Hpos. induction l as [|g l IH]; simpl; [lia|].
  specialize (Hpos (content (file g))). lia.
Qed.

(** A candidate the loop passes over does not fit next to what is
    selected in the end. *)
Lemma budget_loop_greedy maxTok sorted selected cur f :
  (∀ s, 0 ≤ tokenizer_count s)%Z →
  selected ≠ [] → total_tokens selected = cur →
  f ∈ sorted → f ∉ budget_loop maxTok sorted selected cur →
  (maxTok < total_tokens (budget_loop maxTok sorted selected cur)
            + tokenizer_count (content (file f)))%Z.
Proof.
  intros Hpos. revert selected cur.
  induction sorted as [|g rest IH]; intros selected cur Hne Htot Hin Hout.
  - by apply elem_of_nil in Hin.
  - simpl in *.
    destruct (Z.leb_spec (cur + tokenizer_count (content (file g))) maxTok)
      as [Hfit|Hover].
    + assert (Hne' : selected ++ [g] ≠ []).
      { intros Habs. by apply app_eq_nil in Habs as [_ ?]. }
      apply elem_of_cons in Hin as [->|Hin].
      * exfalso. apply Hout.
        destruct (budget_loop_appends maxTok rest (selected ++ [g])
                    (cur + tokenizer_count (content (file g)))%Z Hne')
          as (more & -> & _).
        rewrite !elem_of_app, list_elem_of_singleton. auto.
      * apply IH; try done. rewrite total_tokens_app. simpl. lia.
    + destruct selected as [|s0 sel]; [done|]. simpl in *.
      apply elem_of_cons in Hin as [->|Hin]; [|by apply IH].
      destruct (budget_loop_appends maxTok rest (s0 :: sel) cur Hne)
        as (more & Hr & _).
      rewrite Hr, total_tokens_app.
      pose proof (total_tokens_nonneg more Hpos). simpl in *. lia.
Qed.

(** The selection comes in score order: unless it is the single truncated
    top file, it is a subsequence of the candidates sorted by descending
    score, and that sort is stable, so files of equal score keep the order
    they had among the candidates. *)
Theorem selectWithinBudget_in_score_order :
  ∀ (files : list ScoredFile) (maxTok : Z),
    ((∃ top, head (sort_by_score files) = Some top
             ∧ (maxTok < tokenizer_count (content (file top)))%Z
             ∧ selectWithinBudget files maxTok = [truncateToTokens top maxTok])
     ∨ selectWithinBudget files maxTok `sublist_of` sort_by_score files)
    ∧ sort_by_score files ≡ₚ files
    ∧ StronglySorted score_desc (sort_by_score files)
    ∧ ∀ v, of_score v (sort_by_score files) = of_score v files.
Proof.
  intros files maxTok. split; [|split; [apply sort_by_score_perm|split;
    [apply sort_by_score_sorted | intros v; apply sort_by_score_stable]]].
  unfold ContextSelector.selectWithinBudget.
  destruct (sort_by_score files) as [|f rest]; [right; constructor|].
  rewrite budget_loop_first.
  destruct (Z.leb_spec (tokenizer_count (content (file f))) maxTok) as [Hfit|Hover].
  - right.
    destruct (budget_loop_appends maxTok rest [f]
                (tokenizer_count (content (file f)))) as (more & -> & Hsub); [done|].
    by apply sublist_skip.
  - left. by exists f.
Qed.

(** When the whole candidate list fits into the budget, every candidate is
    returned, in score order. *)
Theorem selectWithinBudget_all_fit :
  ∀ (files : list ScoredFile) (maxTok : Z),
    (∀ s, 0 ≤ tokenizer_count s)%Z →
    (total_tokens files ≤ maxTok)%Z →
    selectWithinBudget files maxTok = sort_by_score files.
Proof.
  intros files maxTok Hpos Hfit. unfold ContextSelector.selectWithinBudget.
  rewrite budget_loop_all_fit; [reflexivity | exact Hpos |].
  rewrite (total_tokens_perm _ _ (sort_by_score_perm files)). lia.
Qed.

(** The selection is greedy: when the top file fits, a candidate that was
    left out cannot be added to the returned selection without exceeding
    the token limit. *)
Theorem selectWithinBudget_greedy :
  ∀ (files : list ScoredFile) (maxTok : Z) (top f : ScoredFile),
    (∀ s, 0 ≤ tokenizer_count s)%Z →
    head (sort_by_score files) = Some top →
    (tokenizer_count (content (file top)) ≤ maxTok)%Z →
    f ∈ files → f ∉ selectWithinBudget files maxTok →
    (maxTok < total_tokens (selectWithinBudget files maxTok)
              + tokenizer_count (content (file f)))%Z.
Proof.
  intros files maxTok top f Hpos Hhead Hfit Hin Hout.
  unfold ContextSelector.selectWithinBudget in *.
  rewrite <- (sort_by_score_perm files) in Hin.
  destruct (sort_by_score files) as [|g rest]; [discriminate|].
  injection Hhead as ->. rewrite budget_loop_first in *.
  destruct (Z.leb_spec (tokenizer_count (content (file top))) maxTok)
    as [_|Hover]; [|lia].
  apply elem_of_cons in Hin as [->|Hin].
  - exfalso. apply Hout.
    destruct (budget_loop_appends maxTok rest [top]
                (tokenizer_count (content (file top)))) as (more & -> & _); [done|].
    apply list_elem_of_here.
  - apply budget_loop_greedy; try done. simpl. lia.
Qed.

End Facts.

Definition date_file : ScoredFile :=
  {| file := source "lib/date.ts" "export const now = () => Date.now()" util 40;
     score := 0 |}.

Lemma chars_count_nonneg s : (0 ≤ chars_count s)%Z.
Proof. unfold chars_count. lia. Qed.

Lemma selectWithinBudget_all_fit_witness :
  selectWithinBudget chars_count cut_content scored_corpus 4000
  = sort_by_score scored_corpus.
Proof.
  apply (selectWithinBudget_all_fit chars_count cut_content scored_corpus 4000).
  - apply chars_count_nonneg.
  - vm_compute. discriminate.
Defined.

Lemma selectWithinBudget_greedy_witness :
  (90 < total_tokens chars_count
          (selectWithinBudget chars_count cut_content scored_corpus 90)
        + chars_count (content (file date_file)))%Z.
Proof.
  apply (selectWithinBudget_greedy chars_count cut_content scored_corpus 90
           (hd date_file scored_corpus) date_file).
  - apply chars_count_nonneg.
  - vm_compute. reflexivity.
  - vm_compute. discriminate.
  - vm_compute. apply list_elem_of_further, list_elem_of_here.
  - vm_compute. intros Hin.
    apply elem_of_cons in Hin as [Heq|Hin]; [discriminate Heq|].
    apply elem_of_cons in Hin as [Heq|Hin]; [discriminate Heq|].
    by apply elem_of_nil in Hin.
Defined.

End SelectionFacts.

(** ** What dependency expansion returns: the files within reach *)

Module ReachFacts.

Import DependencyAnalyzer.

Section Reach.

Variable graph : DependencyGraph.
Variable target : string.
Variable depth : nat.

(** [u] imports [v]. *)
Definition edge (u v : string) : Prop :=
  ∃ deps, graph !! u = Some deps ∧ v ∈ deps.

(** [v] is at the end of a chain of [k] imports that starts at the target. *)
Fixpoint reach (k : nat) (v : string) : Prop :=
  match k with
  | O => v = target
  | S k' => ∃ u, reach k' u ∧ edge u v
  end.

Definition within_depth (v : string) : Prop := ∃ k, k ≤ depth ∧ reach k v.

(** The entries pushed while [file] is handled at [currentDepth]. *)
Definition pushed (related : list string) (file : string) (currentDepth : nat)
  : list (string * nat) :=
  map (λ dep, (dep, S currentDepth))
      (List.filter (λ dep, negb (set_has dep related))
                   (default [] (graph !! file))).

(** The state of the loop while level [c] is being handled: [q1] holds the
    pending entries of level [c], [q2] those of level [c + 1]. *)
Record bfs_inv (c : nat) (q1 q2 : list (string * nat)) (related : list string)
  : Prop := {
  inv_level : Forall (λ e, e.2 = c) q1;
  inv_next : Forall (λ e, e.2 = S c) q2;
  inv_pending : ∀ v d, (v, d) ∈ q1 ++ q2 → reach d v;
  inv_visited : ∀ u, u ∈ related → ∃ j, j ≤ c ∧ j ≤ depth ∧ reach j u;
  inv_below : ∀ k v, k < c → k ≤ depth → reach k v → v ∈ related;
  inv_here : c ≤ depth → ∀ v, reach c v → v ∈ related ∨ (v, c) ∈ q1;
  inv_above :
    c < depth → ∀ v, reach (S c) v →
    v ∈ related ∨ (v, c) ∈ q1 ∨ (v, S c) ∈ q2 ∨ ∃ u, (u, c) ∈ q1 ∧ edge u v
}.

Lemma elem_of_set_add x f s : x ∈ set_add f s ↔ x = f ∨ x ∈ s.
Proof.
  unfold set_add. case_bool_decide as Hf.
  - split; [by right | by intros [->|?]].
  - rewrite elem_of_app, list_elem_of_singleton. tauto.
Qed.

Lemma elem_of_pushed related file c v d :
  (v, d) ∈ pushed related file c ↔ d = S c ∧ edge file v ∧ v ∉ related.
Proof.
  unfold pushed, edge. rewrite list_elem_of_fmap. split.
  - intros (dep & Heq & Hin). injection Heq as -> ->.
    apply list_elem_of_In, filter_In in Hin as [Hin Hnot].
    apply list_elem_of_In in Hin. unfold set_has in Hnot.
    apply negb_true_iff, bool_decide_eq_false in Hnot.
    destruct (graph !! file) as [deps|]; simpl in Hin;
      [eauto | by apply elem_of_nil in Hin].
  - intros (-> & (deps & Hg & Hin) & Hnot). exists v. split; [reflexivity|].
    apply list_elem_of_In, filter_In. rewrite Hg. simpl. split.
    + by apply list_elem_of_In.
    + unfold set_has. by apply negb_true_iff, bool_decide_eq_false.
Qed.

Lemma bfs_inv_start : bfs_inv 0 [(target, 0)] [] [].
Proof.
  split.
  - by repeat constructor.
  - constructor.
  - intros v d Hin. apply list_elem_of_singleton in Hin. by injection Hin as -> ->.
  - intros u Hu. by apply elem_of_nil in Hu.
  - intros k v Hk. lia.
  - intros _ v Hv. simpl in Hv. subst v. right. apply list_elem_of_here.
  - intros _ v (u & Hu & He). simpl in Hu. subst u.
    right. right. right. exists target. split; [apply list_elem_of_here | exact He].
Qed.

(** Once level [c] is exhausted, the entries of level [c + 1] take over. *)
Lemma bfs_inv_shift c q2 related :
  bfs_inv c [] q2 related → bfs_inv (S c) q2 [] related.
Proof.
  intros [Hq1 Hq2 HF HE HB HC HD].
  assert (HB' : ∀ k v, k < S c → k ≤ depth → reach k v → v ∈ related).
  { intros k v Hk Hd Hr. destruct (decide (k = c)) as [->|Hne].
    - destruct (HC Hd v Hr) as [?|Hin]; [done | by apply elem_of_nil in Hin].
    - apply (HB k); [lia | done | done]. }
  assert (HC' : S c ≤ depth → ∀ v, reach (S c) v → v ∈ related ∨ (v, S c) ∈ q2).
  { intros Hd v Hr.
    destruct (HD ltac:(lia) v Hr) as [?|[Hin|[?|(u & Hin & _)]]]; auto;
      by apply elem_of_nil in Hin. }
  split.
  - exact Hq2.
  - constructor.
  - intros v d Hin. apply HF. by rewrite app_nil_r in Hin.
  - intros u Hu. destruct (HE u Hu) as (j & ? & ? & ?). exists j. auto with lia.
  - exact HB'.
  - exact HC'.
  - intros Hd v (u & Hu & He).
    destruct (HC' ltac:(lia) u Hu) as [Hrel|Hpend]; [|by eauto 10].
    destruct (HE u Hrel) as (j & Hj & Hjd & Hrj).
    assert (Hv : reach (S j) v) by (exists u; auto).
    destruct (decide (j = c)) as [->|Hne].
    + destruct (HC' ltac:(lia) v Hv); auto.
    + left. apply (HB' (S j)); [lia | lia | exact Hv].
Qed.

(** An entry beyond the depth bound is dropped. *)
Lemma bfs_inv_drop c f d q1 q2 related :
  depth < d → bfs_inv c ((f, d) :: q1) q2 related → bfs_inv c q1 q2 related.
Proof.
  intros Hd [Hq1 Hq2 HF HE HB HC HD].
  apply Forall_cons in Hq1 as [Hc Hq1]. simpl in Hc. subst d.
  split.
  - exact Hq1.
  - exact Hq2.
  - intros v d Hin. apply HF. by apply list_elem_of_further.
  - exact HE.
  - exact HB.
  - intros Hle. lia.
  - intros Hlt. lia.
Qed.

(** An entry within the bound is visited and its imports are queued. *)
Lemma bfs_inv_visit c f d q1 q2 related :
  d ≤ depth → bfs_inv c ((f, d) :: q1) q2 related →
  bfs_inv c q1 (q2 ++ pushed (set_add f related) f d) (set_add f related).
Proof.
  intros Hd [Hq1 Hq2 HF HE HB HC HD].
  apply Forall_cons in Hq1 as [Hc Hq1]. simpl in Hc. subst d.
  assert (Hf : reach c f) by (apply HF, list_elem_of_here).
  split.
  - exact Hq1.
  - apply Forall_app. split; [exact Hq2|].
    apply Forall_forall. intros [v d] Hin.
    apply elem_of_pushed in Hin as (-> & _). reflexivity.
  - intros v d Hin. rewrite app_assoc in Hin.
    apply elem_of_app in Hin as [Hin|Hin].
    + apply HF. by apply list_elem_of_further.
    + apply elem_of_pushed in Hin as (-> & He & _). by exists f.
  - intros u Hu. apply elem_of_set_add in Hu as [->|Hu]; [by exists c | by apply HE].
  - intros k v Hk Hkd Hr. apply elem_of_set_add. right. by apply (HB k).
  - intros Hle v Hr. rewrite elem_of_set_add.
    destruct (HC Hle v Hr) as [?|Hin]; [by auto|].
    apply elem_of_cons in Hin as [Heq|Hin]; [injection Heq as ->; auto | auto].
  - intros Hlt v Hr. rewrite elem_of_set_add, elem_of_app.
    destruct (HD Hlt v Hr) as [?|[Hin|[?|(u & Hin & He)]]]; [by auto| |by auto|].
    + apply elem_of_cons in Hin as [Heq|Hin]; [injection Heq as ->; auto | auto].
    + apply elem_of_cons in Hin as [Heq|Hin]; [|by eauto 10].
      injection Heq as ->.
      destruct (decide (v ∈ set_add f related)) as [Hv|Hv].
      * apply elem_of_set_add in Hv. tauto.
      * right. right. left. right. by apply elem_of_pushed.
Qed.

(** With the queue empty, the visited files are the files within reach. *)
Lemma bfs_inv_done c related v :
  bfs_inv c [] [] related → v ∈ related ↔ within_depth v.
Proof.
  intros [_ _ _ HE HB HC HD]. split.
  - intros Hv. destruct (HE v Hv) as (j & _ & ? & ?). by exists j.
  - intros (k & Hk & Hr). revert v Hk Hr.
    induction k as [k IH] using lt_wf_ind. intros v Hk Hr.
    destruct (decide (k < c)) as [?|Hge]; [by apply (HB k)|].
    destruct (decide (k = c)) as [->|Hne].
    { destruct (HC Hk v Hr) as [?|Hin]; [done | by apply elem_of_nil in Hin]. }
    destruct k as [|k]; [lia|].
    destruct (decide (k = c)) as [->|Hne'].
    { destruct (HD ltac:(lia) v Hr) as [?|[Hin|[Hin|(u & Hin & _)]]]; [done|..];
        by apply elem_of_nil in Hin. }
    destruct Hr as (u & Hu & He).
    assert (Hrel : u ∈ related) by (apply (IH k); [lia | lia | exact Hu]).
    destruct (HE u Hrel) as (j & Hj & _ & Hrj).
    apply (IH (S j)); [lia | lia | by exists u].
Qed.

Lemma bfs_loop_reach fuel c q1 q2 related r :
  bfs_inv c q1 q2 related →
  bfs_loop fuel graph depth related (q1 ++ q2) = Some r →
  ∀ v, v ∈ r ↔ within_depth v.
Proof.
  revert c q1 q2 related.
  induction fuel as [|fuel IH]; intros c q1 q2 related Hinv Hr.
  - destruct q1 as [|e1 q1], q2 as [|e2 q2]; try destruct e1; try destruct e2;
      try discriminate Hr.
    injection Hr as <-. intros v. by eapply bfs_inv_done.
  - assert (Hcase : (q1 = [] ∧ q2 = []) ∨
                    ∃ c' f d q1' q2', q1 ++ q2 = (f, d) :: q1' ++ q2'
                                      ∧ bfs_inv c' ((f, d) :: q1') q2' related).
    { destruct q1 as [|[f d] q1].
      - destruct q2 as [|[f d] q2]; [by left|]. right.
        exists (S c), f, d, q2, []. split; [by rewrite app_nil_r|].
        by apply bfs_inv_shift.
      - right. by exists c, f, d, q1, q2. }
    destruct Hcase as [[-> ->]|(c' & f & d & q1' & q2' & Heq & Hinv')].
    { injection Hr as <-. intros v. by eapply bfs_inv_done. }
    rewrite Heq in Hr. simpl in Hr.
    destruct (Nat.ltb_spec depth d) as [Hcut|Hin].
    + eapply IH; [|exact Hr]. by eapply bfs_inv_drop.
    + rewrite <- app_assoc in Hr. eapply IH; [|exact Hr].
      by apply bfs_inv_visit.
Qed.

End Reach.

Lemma singleton_by_members (r : list string) t :
  NoDup r → (∀ v, v ∈ r ↔ v = t) → r = [t].
Proof.
  intros Hnd Hr. destruct r as [|x r].
  - exfalso. eapply elem_of_nil. by apply Hr.
  - assert (x = t) as -> by (apply Hr, list_elem_of_here).
    apply NoDup_cons in Hnd as [Hx _]. destruct r as [|y r]; [reflexivity|].
    exfalso. apply Hx.
    assert (y = t) as -> by (apply Hr, list_elem_of_further, list_elem_of_here).
    apply list_elem_of_here.
Qed.

Lemma findRelatedFiles_result graph target depth extra :
  ∃ r, findRelatedFiles (bfs_fuel graph depth + extra) target graph depth = Some r
       ∧ NoDup r ∧ ∀ v, v ∈ r ↔ within_depth graph target depth v.
Proof.
  unfold findRelatedFiles.
  destruct (bfs_loop_terminates graph depth (bfs_fuel graph depth + extra)
              [] [(target, 0)]) as (r & Hr & Hnd & _).
  - simpl. unfold bfs_fuel. lia.
  - apply NoDup_nil_2.
  - exists r. split; [exact Hr|]. split; [exact Hnd|].
    eapply (bfs_loop_reach graph target depth _ 0 [(target, 0)] []);
      [apply bfs_inv_start | exact Hr].
Qed.

(** Dependency expansion returns exactly the files that can be reached
    from the target along at most [depth] imports, each of them once. *)
Theorem findRelatedFiles_within_depth :
  ∀ (graph : DependencyGraph) (target : string) (depth extra : nat),
    ∃ r, findRelatedFiles (bfs_fuel graph depth + extra) target graph depth
         = Some r
         ∧ NoDup r
         ∧ ∀ v, v ∈ r ↔ ∃ k, k ≤ depth ∧ reach graph target k v.
Proof. intros. apply findRelatedFiles_result. Qed.

(** With depth 0 nothing is expanded: the result is the target alone. *)
Theorem findRelatedFiles_depth_zero :
  ∀ (graph : DependencyGraph) (target : string) (extra : nat),
    findRelatedFiles (bfs_fuel graph 0 + extra) target graph 0 = Some [target].
Proof.
  intros graph target extra.
  destruct (findRelatedFiles_result graph target 0 extra) as (r & -> & Hnd & Hr).
  f_equal. apply singleton_by_members; [exact Hnd|].
  intros v. rewrite Hr. split.
  - intros (k & Hk & Hv). assert (k = 0) as -> by lia. exact Hv.
  - intros ->. by exists 0.
Qed.

(** A target the graph has no entry for has no known imports: whatever
    the depth, the result is the target alone. *)
Theorem findRelatedFiles_unknown_target :
  ∀ (graph : DependencyGraph) (target : string) (depth extra : nat),
    graph !! target = None →
    findRelatedFiles (bfs_fuel graph depth + extra) target graph depth
    = Some [target].
Proof.
  intros graph target depth extra Hnone.
  destruct (findRelatedFiles_result graph target depth extra)
    as (r & -> & Hnd & Hr).
  f_equal. apply singleton_by_members; [exact Hnd|].
  intros v. rewrite Hr. split.
  - intros (k & _ & Hv). destruct k as [|k]; [exact Hv|]. exfalso.
    clear -Hnone Hv. revert v Hv. induction k as [|k IH]; intros v (u & Hu & He).
    + simpl in Hu. subst u. destruct He as (deps & Hg & _). congruence.
    + exact (IH u Hu).
  - intros ->. exists 0. split; [lia | reflexivity].
Qed.

Lemma findRelatedFiles_unknown_target_witness :
  findRelatedFiles (bfs_fuel cycle_graph 2 + 0) "C"%string cycle_graph 2
  = Some ["C"%string].
Proof.
  apply (findRelatedFiles_unknown_target cycle_graph "C"%string 2 0).
  vm_compute. reflexivity.
Defined.

End ReachFacts.

(** ** Intent analysis: keyword extraction (IntentAnalyzer.extractKeywords) *)

Module IntentAnalyzer.

Import Regex.

Local Open Scope string_scope.

(** [pattern.test(input)] *)
Definition test (pattern : regex) (input : string) : bool :=
  match exec pattern input with Some _ => true | None => false end.

(** [s.split(/\s+/)]: the pieces between runs of whitespace. With
    [in_run] set, the scan is inside a separator. *)
Fixpoint pieces (in_run : bool) (s : string) : list string :=
  match s with
  | EmptyString => [EmptyString]
  | String c s' =>
      if is_space c then
        if in_run then pieces true s' else EmptyString :: pieces true s'
      else
        match pieces false s' with
        | piece :: rest => String c piece :: rest
        | [] => [String c EmptyString]
        end
  end.

Definition split_whitespace (s : string) : list string := pieces false s.

Definition stopWords : list string :=
  ["the"; "a"; "an"; "and"; "or"; "but"; "in"; "on"; "at"].

Definition stopWords_has (word : string) : bool :=
  existsb (String.eqb word) stopWords.

(** [[...new Set(items)]]: first occurrences, in order. *)
Definition unique (items : list string) : list string :=
  foldl (λ seen item, DependencyAnalyzer.set_add item seen) [] items.

Definition react_terms : regex :=
  Alt (lit_ci "hook") (Alt (lit_ci "state") (Alt (lit_ci "props")
    (lit_ci "component"))).

Definition api_terms : regex :=
  Alt (lit_ci "api") (Alt (lit_ci "endpoint") (Alt (lit_ci "route")
    (Alt (lit_ci "rest") (lit_ci "graphql")))).

Definition database_terms : regex :=
  Alt (lit_ci "database") (Alt (lit_ci "sql") (Alt (lit_ci "query")
    (Alt (lit_ci "model") (lit_ci "schema")))).

Definition style_terms : regex :=
  Alt (lit_ci "style") (Alt (lit_ci "css") (Alt (lit_ci "tailwind")
    (Alt (lit_ci "design") (lit_ci "theme")))).

Definition extractTechnicalTerms (input : string) : list string :=
  let terms : list string := [] in
  (* React/Next.js terms *)
  let terms := if test react_terms input then (terms ++ ["react"])%list else terms in
  (* API terms *)
  let terms := if test api_terms input then (terms ++ ["api"])%list else terms in
  (* Database terms *)
  let terms :=
    if test database_terms input then (terms ++ ["database"])%list else terms in
  (* Style terms *)
  let terms := if test style_terms input then (terms ++ ["style"])%list else terms in
  terms.

Definition extractKeywords (input : string) : list string :=
  let words :=
    List.filter
      (λ word, (2 <? String.length word)%nat && negb (stopWords_has word))
      (split_whitespace (Js.toLowerCase input)) in
  let technicalTerms := extractTechnicalTerms input in
  unique (words ++ technicalTerms)%list.

Example extractKeywords_login :
  extractKeywords "Fix the  login Button on the API route"
  = ["fix"; "login"; "button"; "api"; "route"].
Proof. vm_compute. reflexivity. Qed.

Example split_whitespace_edges :
  split_whitespace " a  b " = [""; "a"; "b"; ""] ∧ split_whitespace "" = [""].
Proof. vm_compute. split; reflexivity. Qed.

Lemma unique_acc_spec items seen :
  NoDup seen →
  NoDup (foldl (λ seen item, DependencyAnalyzer.set_add item seen) seen items)
  ∧ ∀ x, x ∈ foldl (λ seen item, DependencyAnalyzer.set_add item seen) seen items
         ↔ x ∈ seen ∨ x ∈ items.
Proof.
  revert seen. induction items as [|item items IH]; intros seen Hnd; simpl.
  - split; [exact Hnd|]. intros x. rewrite elem_of_nil. tauto.
  - destruct (IH (DependencyAnalyzer.set_add item seen)) as [Hnd' Hmem].
    { by apply DependencyAnalyzer.set_add_NoDup. }
    split; [exact Hnd'|]. intros x.
    rewrite Hmem, ReachFacts.elem_of_set_add, elem_of_cons. tauto.
Qed.

Lemma lower_ascii_idem c : Js.lower_ascii (Js.lower_ascii c) = Js.lower_ascii c.
Proof. destruct c as [[] [] [] [] [] [] [] []]; vm_compute; reflexivity. Qed.

Lemma toLowerCase_idem s : Js.toLowerCase (Js.toLowerCase s) = Js.toLowerCase s.
Proof.
  induction s as [|c s IH]; simpl; [reflexivity|].
  by rewrite IH, lower_ascii_idem.
Qed.

(** The pieces of a lower-case string are lower case. *)
Lemma pieces_lower in_run s :
  Js.toLowerCase s = s → Forall (λ p, Js.toLowerCase p = p) (pieces in_run s).
Proof.
  revert in_run. induction s as [|c s IH]; intros in_run Hs; simpl.
  - by repeat constructor.
  - simpl in Hs. injection Hs as Hc Hs.
    destruct (is_space c).
    + destruct in_run; [by apply IH|]. constructor; [reflexivity | by apply IH].
    + specialize (IH false Hs).
      destruct (pieces false s) as [|piece rest].
      * repeat constructor. simpl. by rewrite Hc.
      * apply Forall_cons in IH as [Hp Hrest].
        constructor; [|exact Hrest]. simpl. by rewrite Hc, Hp.
Qed.


End IntentAnalyzer.

(** ** Framework and design-system detection (quality.ts, codebase.ts) *)

Module Detectors.

Local Open Scope string_scope.

(** The two dependency tables of [package.json]; a missing table is empty. *)
Record PackageManifest := {
  dependencies : gmap string string;
  devDependencies : gmap string string
}.

(** [{ ...packageJson.dependencies, ...packageJson.devDependencies }]: on a
    shared name the development entry wins. *)
Definition merged (pj : PackageManifest) : gmap string string :=
  devDependencies pj ∪ dependencies pj.

(** Truthiness of [deps[name]]. *)
Definition has (deps : gmap string string) (name : string) : bool :=
  match deps !! name with
  | Some version => Js.truthy version
  | None => false
  end.

(** [detectFramework] of quality.ts *)
Definition detectFramework (packageJson : PackageManifest) : string :=
  let deps := merged packageJson in
  if has deps "next" then "Next.js"
  else if has deps "gatsby" then "Gatsby"
  else if has deps "@remix-run/react" then "Remix"
  else if has deps "react" && has deps "react-scripts" then "Create React App"
  else if has deps "react" && has deps "vite" then "Vite + React"
  else if has deps "react" then "React"
  else if has deps "vue" then "Vue"
  else if has deps "svelte" then "Svelte"
  else if has deps "@angular/core" then "Angular"
  else if has deps "express" then "Express"
  else if has deps "fastify" then "Fastify"
  else if has deps "koa" then "Koa"
  else "Unknown".

(** [detectDesignSystem] of quality.ts; the two flags say whether
    [tailwind.config.js] and [tailwind.config.ts] exist. *)
Definition detectDesignSystem (tailwind_config_js tailwind_config_ts : bool)
    (packageJson : PackageManifest) : DesignSystem :=
  let deps := merged packageJson in
  if has deps "biokit-design-system" || has deps "@biokit/design-system"
  then ds_biokit
  else if has deps "@mui/material" || has deps "@material-ui/core"
  then ds_material_ui
  else if has deps "antd" then ds_ant_design
  else if has deps "@chakra-ui/react" then ds_chakra
  else if has deps "tailwindcss" && (tailwind_config_js || tailwind_config_ts)
  then ds_tailwind
  else if has deps "styled-components" || has deps "@emotion/react"
  then ds_other
  else ds_none.

(** [detectFramework] of codebase.ts; [requirements_txt] says whether the
    repository has a [requirements.txt]. *)
Definition codebase_detectFramework (packageJson : option PackageManifest)
    (requirements_txt : bool) : string :=
  match packageJson with
  | None => "unknown"
  | Some packageJson =>
      let deps := merged packageJson in
      if has deps "next" then "nextjs"
      else if has deps "react" && has deps "react-scripts" then "create-react-app"
      else if has deps "react" && has deps "vite" then "vite-react"
      else if has deps "react" && has deps "gatsby" then "gatsby"
      else if has deps "react" then "react"
      else if has deps "vue" || has deps "nuxt"
      then (if has deps "nuxt" then "nuxt" else "vue")
      else if has deps "@angular/core" then "angular"
      else if has deps "svelte" || has deps "@sveltejs/kit"
      then (if has deps "@sveltejs/kit" then "sveltekit" else "svelte")
      else if has deps "express" then "express"
      else if requirements_txt then "python"
      else "unknown"
  end.

(** The names that decide the framework label of quality.ts by themselves. *)
Definition framework_packages : list string :=
  ["next"; "gatsby"; "@remix-run/react"; "react"; "vue"; "svelte";
   "@angular/core"; "express"; "fastify"; "koa"].

(** A name is a dependency when either table lists it with a non-empty
    version, the development table deciding when both list it. *)
Lemma has_merged pj name :
  has (merged pj) name
  = match devDependencies pj !! name with
    | Some version => Js.truthy version
    | None => has (dependencies pj) name
    end.
Proof.
  unfold has, merged. rewrite lookup_union.
  destruct (devDependencies pj !! name), (dependencies pj !! name); reflexivity.
Qed.

(** Case analysis along a chain of [if]s whose tests are dependency lookups. *)
Ltac walk_chain :=
  repeat match goal with
         | |- context [has ?deps ?name] =>
             let E := fresh "E" in destruct (has deps name) eqn:E; cbn [andb orb]
         end.

(** The label is "Unknown" exactly when none of the framework packages is
    a dependency; [react-scripts] and [vite] count only next to [react]. *)
Theorem detectFramework_unknown_iff :
  ∀ packageJson : PackageManifest,
    detectFramework packageJson = "Unknown"
    ↔ Forall (λ name, has (merged packageJson) name = false) framework_packages.
Proof.
  intros pj. unfold detectFramework, framework_packages.
  set (deps := merged pj). rewrite !Forall_cons, Forall_nil.
  split.
  - walk_chain; intros H; try discriminate H; tauto.
  - intros (-> & -> & -> & -> & -> & -> & -> & -> & -> & -> & _). reflexivity.
Qed.

(** Both detectors put Next.js first and agree on it; whenever codebase.ts
    says "gatsby", quality.ts says "Gatsby". *)
Theorem detectFramework_detectors_agree :
  ∀ (packageJson : PackageManifest) (requirements_txt : bool),
    (detectFramework packageJson = "Next.js"
     ↔ codebase_detectFramework (Some packageJson) requirements_txt = "nextjs")
    ∧ (codebase_detectFramework (Some packageJson) requirements_txt = "gatsby"
       → detectFramework packageJson = "Gatsby").
Proof.
  intros pj req. unfold detectFramework, codebase_detectFramework.
  set (deps := merged pj).
  destruct (has deps "next") eqn:Enext; [split; [tauto | discriminate]|].
  split; [split|].
  - walk_chain; intros H; discriminate H.
  - walk_chain; destruct req; intros H; discriminate H.
  - destruct (has deps "gatsby") eqn:Egatsby; [reflexivity|].
    walk_chain; destruct req; intros H; discriminate H.
Qed.

(** The in-house system has priority over every other kit, in either
    dependency table; Tailwind is reported only when its configuration
    file exists as well. *)
Theorem detectDesignSystem_priority :
  ∀ (config_js config_ts : bool) (packageJson : PackageManifest),
    (detectDesignSystem config_js config_ts packageJson = ds_biokit
     ↔ has (merged packageJson) "biokit-design-system" = true
       ∨ has (merged packageJson) "@biokit/design-system" = true)
    ∧ (detectDesignSystem config_js config_ts packageJson = ds_tailwind
       → has (merged packageJson) "tailwindcss" = true
         ∧ (config_js = true ∨ config_ts = true))
    ∧ (config_js = false → config_ts = false →
       detectDesignSystem config_js config_ts packageJson ≠ ds_tailwind).
Proof.
  intros cjs cts pj. unfold detectDesignSystem. set (deps := merged pj).
  split; [|split].
  - split.
    + walk_chain; intros H; try discriminate H; auto.
      all: destruct cjs, cts; discriminate H.
    + intros [-> | ->]; [reflexivity|]. by rewrite orb_true_r.
  - walk_chain; destruct cjs, cts; intros H; try discriminate H; auto.
  - intros -> ->. walk_chain; discriminate.
Qed.

End Detectors.

(** ** Requirements extractor: priorities and PRD features (requirements.ts) *)

Module RequirementsFacts.

Import Regex Requirements.

Local Open Scope string_scope.

Definition highPriorityKeywords : list string :=
  ["must"; "required"; "critical"; "essential"; "p0"; "p1"].

Definition lowPriorityKeywords : list string :=
  ["nice to have"; "optional"; "future"; "later"; "p3"; "p4"].

Definition detectPriority (text : string) : Priority :=
  let lowerText := Js.toLowerCase text in
  if existsb (λ keyword, Js.includes keyword lowerText) highPriorityKeywords
  then high
  else if existsb (λ keyword, Js.includes keyword lowerText) lowPriorityKeywords
  then low
  else medium.

(** A pattern anchored with [^]: it has to match at the first character. *)
Definition test_at_start (pattern : regex) (line : string) : bool :=
  match run pattern line [] (λ _ caps, Some caps) with
  | Some _ => true
  | None => false
  end.

Definition hash : regex := Chr (Ascii.eqb "#").

(** [#{1,3}] *)
Definition hashes_1_3 : regex := Seq hash (Opt (Seq hash (Opt hash))).

Definition section_words : regex :=
  Alt (lit_ci "features") (Alt (lit_ci "functionality") (lit_ci "requirements")).

(** [/^#{1,3}\s*(features|functionality|requirements)/i] *)
Definition features_heading : regex :=
  Seq hashes_1_3 (Seq (Star (Chr is_space)) (Group 1 section_words)).

(** [/^#{1,3}\s/] *)
Definition any_heading : regex := Seq hashes_1_3 (Chr is_space).

(** [/^[\-\*]\s+(.+)/] *)
Definition bullet : regex :=
  Seq (Chr (λ c, Ascii.eqb c "-" || Ascii.eqb c "*"))
    (Seq (Plus (Chr is_space)) (Group 1 (Plus (Chr is_dot)))).

(** [/^\s{2,}/] *)
Definition indented : regex :=
  Seq (Chr is_space) (Seq (Chr is_space) (Star (Chr is_space))).

(** [currentFeature.description = (currentFeature.description || '') +
    line.trim() + ' '], on the feature pushed last, which is the one
    [currentFeature] refers to. *)
Definition describe_last (line : string) (features : list ExtractedFeature)
  : list ExtractedFeature :=
  match reverse features with
  | [] => features
  | current :: earlier =>
      (reverse earlier ++
       [ {| name := name current;
            description :=
              Some (default "" (description current) ++ Gaps.trim line ++ " ")%string;
            priority := priority current;
            status := status current |} ])%list
  end.

(** One round of the loop over the lines: the section flag and the
    features collected so far. *)
Definition prd_step (state : bool * list ExtractedFeature) (line : string)
  : bool * list ExtractedFeature :=
  let '(inFeaturesSection, features) := state in
  if test_at_start features_heading line then (true, features)
  else
    let inFeaturesSection :=
      if inFeaturesSection && test_at_start any_heading line
         && negb (IntentAnalyzer.test section_words line)
      then false else inFeaturesSection in
    if inFeaturesSection then
      match run bullet line [] (λ _ caps, Some caps) with
      | Some match_ =>
          let featureName := Gaps.trim (capture 1 match_) in
          (inFeaturesSection,
           (features ++ [ {| name := featureName;
                             description := None;
                             priority := Some (detectPriority featureName);
                             status := None |} ])%list)
      | None =>
          if test_at_start indented line
          then (inFeaturesSection, describe_last line features)
          else (inFeaturesSection, features)
      end
    else (inFeaturesSection, features).

(** [lines] is [content.split('\n')]. *)
Definition extractFeaturesFromPRD (lines : list string) : list ExtractedFeature :=
  (foldl prd_step (false, []) lines).2.

Example extractFeaturesFromPRD_two_bullets :
  extractFeaturesFromPRD
    ["# Product"; ""; "## Features"; "- User login (must have)";
     "  with single sign-on"; "* Export to CSV, optional"; "";
     "## Timeline"; "- Q3 launch"]
  = [ {| name := "User login (must have)";
         description := Some "with single sign-on ";
         priority := Some high; status := None |};
      {| name := "Export to CSV, optional"; description := None;
         priority := Some low; status := None |} ].
Proof. vm_compute. reflexivity. Qed.

(** What every extracted feature looks like. *)
Definition fresh_feature (f : ExtractedFeature) : Prop :=
  priority f = Some (detectPriority (name f)) ∧ status f = None.

Lemma toLowerCase_append a b :
  Js.toLowerCase (a ++ b) = Js.toLowerCase a ++ Js.toLowerCase b.
Proof.
  induction a as [|c a IH]; [reflexivity|].
  rewrite Gaps.append_cons. simpl. by rewrite IH.
Qed.

Lemma prefix_append w b : String.prefix w (w ++ b) = true.
Proof.
  induction w as [|c w IH]; [by destruct b|].
  rewrite Gaps.append_cons. simpl. by destruct (ascii_dec c c).
Qed.

Lemma includes_middle w a b : Js.includes w (a ++ w ++ b) = true.
Proof.
  induction a as [|c a IH].
  - change ("" ++ w ++ b) with (w ++ b).
    pose proof (prefix_append w b) as Hp.
    destruct (w ++ b); cbn [Js.includes]; by rewrite Hp.
  - rewrite Gaps.append_cons. cbn [Js.includes]. rewrite IH. apply orb_true_r.
Qed.

(** A high-priority keyword anywhere in the text, in any letter case and
    even inside a longer word, makes the text High, whatever else the
    text says. *)
Theorem detectPriority_high_substring :
  ∀ (keyword before word after : string),
    keyword ∈ highPriorityKeywords →
    Js.toLowerCase word = keyword →
    detectPriority (before ++ word ++ after) = high.
Proof.
  intros keyword before word after Hin Hword. unfold detectPriority.
  rewrite !toLowerCase_append, Hword.
  assert (Hex : existsb
                  (λ k, Js.includes k
                          (Js.toLowerCase before ++ keyword ++ Js.toLowerCase after))
                  highPriorityKeywords = true).
  { apply existsb_exists. exists keyword.
    split; [by apply list_elem_of_In | apply includes_middle]. }
  by rewrite Hex.
Qed.

Lemma detectPriority_high_substring_witness :
  detectPriority ("Custard and " ++ "MUST" ++ "ard dip, optional") = high.
Proof.
  apply (detectPriority_high_substring "must" "Custard and " "MUST"
           "ard dip, optional").
  - apply list_elem_of_here.
  - reflexivity.
Defined.

Lemma describe_last_length line features :
  length (describe_last line features) = length features.
Proof.
  unfold describe_last. destruct (reverse features) as [|cur earlier] eqn:E;
    [reflexivity|].
  rewrite <- (reverse_involutive features), E, reverse_cons.
  by rewrite !length_app, !length_reverse.
Qed.

Lemma describe_last_fresh line features :
  Forall fresh_feature features → Forall fresh_feature (describe_last line features).
Proof.
  intros H. unfold describe_last.
  destruct (reverse features) as [|cur earlier] eqn:E; [exact H|].
  rewrite <- (reverse_involutive features), E, reverse_cons in H.
  apply Forall_app in H as [He Hc]. apply Forall_app. split; [exact He|].
  rewrite Forall_singleton in Hc. apply Forall_singleton. exact Hc.
Qed.

Lemma prd_step_inv state line :
  Forall fresh_feature state.2 →
  Forall fresh_feature (prd_step state line).2
  ∧ (length (prd_step state line).2 ≤ S (length state.2))%nat.
Proof.
  destruct state as [inSection features]. cbn [snd]. intros H.
  unfold prd_step.
  generalize (run bullet line [] (λ _ caps, Some caps)). intros bulletMatch.
  generalize (test_at_start features_heading line)
    (test_at_start any_heading line) (IntentAnalyzer.test section_words line)
    (test_at_start indented line).
  intros isSection isHeading namesSection isIndented.
  destruct isSection; [cbn [snd]; auto|].
  destruct (if inSection && isHeading && negb namesSection
            then false else inSection); [|cbn [snd]; auto].
  destruct bulletMatch as [m|].
  - cbn [snd]. split; [|rewrite length_app; cbn [length]; lia].
    apply Forall_app. split; [exact H|]. apply Forall_singleton. by split.
  - destruct isIndented; cbn [snd]; [|auto].
    split; [by apply describe_last_fresh | rewrite describe_last_length; lia].
Qed.

Lemma prd_fold_inv lines state :
  Forall fresh_feature state.2 →
  Forall fresh_feature (foldl prd_step state lines).2
  ∧ (length (foldl prd_step state lines).2 ≤ length state.2 + length lines)%nat.
Proof.
  revert state. induction lines as [|line lines IH]; intros state H; simpl.
  - split; [exact H | lia].
  - destruct (prd_step_inv state line H) as [Hf Hl].
    destruct (IH _ Hf) as [Hf' Hl']. split; [exact Hf' | lia].
Qed.

(** Every feature taken from a PRD carries the priority that
    [detectPriority] gives its name and no status, and there are never
    more features than lines. *)
Theorem extractFeaturesFromPRD_features :
  ∀ lines : list string,
    Forall fresh_feature (extractFeaturesFromPRD lines)
    ∧ (length (extractFeaturesFromPRD lines) ≤ length lines)%nat.
Proof.
  intros lines. unfold extractFeaturesFromPRD.
  destruct (prd_fold_inv lines (false, []) (Forall_nil_2 _)) as [Hf Hl].
  split; [exact Hf | exact Hl].
Qed.



Lemma dedup_filter_fixed seen features :
  NoDup (feature_key <$> features) →
  (∀ f, f ∈ features → feature_key f ∉ seen) →
  dedup_filter seen features = features.
Proof.
  revert seen. induction features as [|f rest IH]; intros seen Hnd Hun;
    [reflexivity|].
  simpl. rewrite fmap_cons in Hnd. apply NoDup_cons in Hnd as [Hf Hnd].
  rewrite bool_decide_eq_false_2 by (apply Hun, list_elem_of_here).
  f_equal. apply IH; [exact Hnd|].
  intros g Hg. rewrite elem_of_union, elem_of_singleton. intros [Heq|Hs].
  - apply Hf. rewrite <- Heq. apply list_elem_of_fmap. by exists g.
  - by apply (Hun g); [apply list_elem_of_further|].
Qed.


End RequirementsFacts.

(** ** Gap detector: what marker comments report (findTODOs) *)

Module TodoFacts.

Import Regex Gaps.

Local Open Scope string_scope.

(** No line terminator anywhere. *)
Fixpoint all_dot (s : string) : bool :=
  match s with
  | EmptyString => true
  | String c s' => is_dot c && all_dot s'
  end.

(** The separator between marker and description. *)
Definition colon_text (colon : bool) : string := if colon then ":" else "".

Lemma lower_ascii_colon c : Js.lower_ascii c = ":"%char → c = ":"%char.
Proof. destruct c as [[] [] [] [] [] [] [] []]; vm_compute; congruence. Qed.

Lemma is_space_not_colon c : is_space c = true → Js.lower_ascii c ≠ ":"%char.
Proof. destruct c as [[] [] [] [] [] [] [] []]; vm_compute; congruence. Qed.

Lemma substring_full (s : string) :
  String.substring 0 (String.length s - 0) s = s.
Proof.
  pose proof (substring_append_prefix s "") as H.
  rewrite append_empty_r in H. exact H.
Qed.

(** [.*] swallows a text without line terminators whole. *)
Lemma star_dot_all k s caps fuel result :
  all_dot s = true → (String.length s < fuel)%nat →
  k "" caps = Some result →
  star_loop (run (Chr is_dot)) k fuel s caps = Some result.
Proof.
  intros Hs Hfuel Hk. revert fuel Hs Hfuel.
  induction s as [|c s IH]; intros fuel Hs Hfuel.
  - destruct fuel as [|fuel]; [simpl in Hfuel; lia|].
    cbn [star_loop run]. exact Hk.
  - destruct fuel as [|fuel]; [simpl in Hfuel; lia|].
    simpl in Hs. apply andb_prop in Hs as [Hc Hs].
    cbn [star_loop run]. rewrite Hc.
    destruct (Nat.ltb_spec (String.length s) (String.length (String c s)))
      as [_|Hge]; [|simpl in Hge; lia].
    rewrite IH; [reflexivity | exact Hs | simpl in Hfuel; lia].
Qed.

(** [(.+)] on a description. *)
Lemma run_description d caps :
  all_dot d = true → d ≠ "" →
  run (Group 2 (Plus (Chr is_dot))) d caps accept = Some ((2, d) :: caps).
Proof.
  intros Hd Hne. destruct d as [|c d]; [done|].
  simpl in Hd. apply andb_prop in Hd as [Hc Hd].
  cbn [run Plus]. rewrite Hc. cbn [run].
  apply star_dot_all; [exact Hd | lia |].
  unfold accept. cbv beta. f_equal. f_equal. f_equal.
  apply (substring_full (String c d)).
Qed.

Lemma run_ci_hit x c s caps k :
  Js.lower_ascii c = Js.lower_ascii x → run (ci x) (String c s) caps k = k s caps.
Proof. intros H. cbn [run ci]. by rewrite H, Ascii.eqb_refl. Qed.

Lemma run_ci_miss x c s caps k :
  Js.lower_ascii c ≠ Js.lower_ascii x → run (ci x) (String c s) caps k = None.
Proof.
  intros H. cbn [run ci].
  by destruct (Ascii.eqb_spec (Js.lower_ascii c) (Js.lower_ascii x)).
Qed.

(** [:?\s*(.+)] after the marker. *)
Lemma run_after_marker colon w2 d caps :
  all_space w2 = true → all_dot d = true →
  match d with
  | String c _ => is_space c = false ∧ (colon = false → c ≠ ":"%char)
  | EmptyString => False
  end →
  run after_marker (colon_text colon ++ w2 ++ d) caps accept
  = Some ((2, d) :: caps).
Proof.
  intros Hw Hd Hhead.
  assert (Hne : d ≠ "") by (intros ->; exact Hhead).
  assert (Hrest :
    run (Seq (Star (Chr is_space)) (Group 2 (Plus (Chr is_dot)))) (w2 ++ d)
      caps accept = Some ((2, d) :: caps)).
  { rewrite run_Seq. cbn [run].
    rewrite star_space_greedy; [|exact Hw| |lia].
    - apply greedy_back_hit. by apply run_description.
    - destruct d as [|c d]; [done | apply Hhead]. }
  unfold after_marker. rewrite run_Seq. unfold Opt. rewrite run_Alt.
  destruct colon.
  - change (colon_text true ++ w2 ++ d) with (String ":" (w2 ++ d)).
    rewrite run_ci_hit by reflexivity. by rewrite Hrest.
  - change (colon_text false ++ w2 ++ d) with (w2 ++ d).
    assert (∃ c s, w2 ++ d = String c s
                   ∧ Js.lower_ascii c ≠ Js.lower_ascii ":")
      as (c & s & Heq & Hc).
    { destruct w2 as [|c2 w2].
      - destruct d as [|c d]; [done|]. destruct Hhead as [_ Hc].
        exists c, d. split; [reflexivity|].
        intros Habs. apply Hc; [reflexivity | by apply lower_ascii_colon].
      - simpl in Hw. apply andb_prop in Hw as [Hc2 _].
        exists c2, (w2 ++ d). split; [reflexivity|].
        by apply is_space_not_colon. }
    rewrite Heq at 1. rewrite run_ci_miss by exact Hc.
    cbn [run]. exact Hrest.
Qed.



Lemma todo_of_line_shape file index line gap :
  gap ∈ todo_of_line file index line →
  gap_type gap = gap_todo ∧ gap_file gap = file
  ∧ gap_line gap = Some (index + 1)%nat
  ∧ (gap_priority gap = Some prio_high ∨ gap_priority gap = Some prio_medium).
Proof.
  unfold todo_of_line. destruct (exec todoPattern line) as [m|].
  - intros Hin. apply list_elem_of_singleton in Hin. subst gap. simpl.
    repeat split. destruct (String.eqb _ _); auto.
  - intros Hin. by apply elem_of_nil in Hin.
Qed.

Lemma todo_of_line_length file index line :
  (length (todo_of_line file index line) ≤ 1)%nat.
Proof. unfold todo_of_line. destruct (exec todoPattern line); simpl; lia. Qed.

Lemma concat_imap_length {A B} (f : nat → A → list B) (l : list A) :
  (∀ i x, length (f i x) ≤ 1)%nat → (length (concat (imap f l)) ≤ length l)%nat.
Proof.
  revert f. induction l as [|x l IH]; intros f Hf; [reflexivity|].
  rewrite imap_cons. simpl. rewrite length_app.
  pose proof (Hf 0%nat x) as Hx.
  assert (length (concat (imap (f ∘ S) l)) ≤ length l)%nat; [|lia].
  apply IH. intros i y. apply Hf.
Qed.

(** Every gap of [findTODOs] is a todo gap of the given file with a
    1-based line number inside the file and priority high or medium; a
    line yields at most one gap. *)
Theorem findTODOs_gaps :
  ∀ (file : string) (lines : list string),
    (length (findTODOs file lines) ≤ length lines)%nat
    ∧ ∀ gap, gap ∈ findTODOs file lines →
        gap_type gap = gap_todo ∧ gap_file gap = file
        ∧ (∃ n, gap_line gap = Some n ∧ (1 ≤ n ≤ length lines)%nat)
        ∧ (gap_priority gap = Some prio_high
           ∨ gap_priority gap = Some prio_medium).
Proof.
  intros file lines. unfold findTODOs. split.
  - apply concat_imap_length. intros. apply todo_of_line_length.
  - intros gap Hin.
    apply list_elem_of_In, in_concat in Hin as (gs & Hgs & Hgap).
    apply list_elem_of_In in Hgs, Hgap.
    apply elem_of_lookup_imap in Hgs as (i & line & -> & Hi).
    apply todo_of_line_shape in Hgap as (Ht & Hf & Hl & Hp).
    repeat split; try done.
    exists (i + 1)%nat. split; [exact Hl|].
    apply lookup_lt_Some in Hi. lia.
Qed.

End TodoFacts.

(** ** Gap detector: incomplete implementations
       (findIncompleteImplementations) *)

Module IncompleteFacts.

Import Regex.

Local Open Scope string_scope.

(** A literal character and a literal word without the [i] flag. *)
Definition cs (x : ascii) : regex := Chr (Ascii.eqb x).

Fixpoint lit (word : string) : regex :=
  match word with
  | EmptyString => Eps
  | String x word' => Seq (cs x) (lit word')
  end.

Definition space : regex := Chr is_space.

(** [\w] *)
Definition is_word (c : ascii) : bool :=
  let n := nat_of_ascii c in
  ((65 <=? n) && (n <=? 90) || (97 <=? n) && (n <=? 122)
   || (48 <=? n) && (n <=? 57) || (n =? 95))%nat.

(** The class of the single and the double quote. *)
Definition quote : regex :=
  Chr (λ c, Ascii.eqb c "'" || Ascii.eqb c "034").

(** A pattern of the table, with whether it starts with [^]. *)
Record IncompletePattern := {
  pattern : regex;
  anchored : bool;
  pattern_description : string
}.

Definition incompletePatterns : list IncompletePattern :=
  [ (* /^\s*\/\/\s*\.\.\./ *)
    {| pattern := Seq (Star space) (Seq (lit "//") (Seq (Star space) (lit "...")));
       anchored := true;
       pattern_description := "Ellipsis comment indicating more code needed" |};
    (* /throw\s+new\s+Error\([quote]Not yet implemented/i *)
    {| pattern :=
         Seq (lit_ci "throw") (Seq (Plus space) (Seq (lit_ci "new")
           (Seq (Plus space) (Seq (lit_ci "Error(") (Seq quote
             (lit_ci "Not yet implemented"))))));
       anchored := false;
       pattern_description := "Not yet implemented error" |};
    (* /alert\([quote]Not implemented/i *)
    {| pattern := Seq (lit_ci "alert(") (Seq quote (lit_ci "Not implemented"));
       anchored := false;
       pattern_description := "Alert indicating missing implementation" |};
    (* /console\.\w+\([quote]TODO:/i *)
    {| pattern :=
         Seq (lit_ci "console.") (Seq (Plus (Chr is_word)) (Seq (lit_ci "(")
           (Seq quote (lit_ci "TODO:"))));
       anchored := false;
       pattern_description := "Console log with TODO" |};
    (* /return\s+Promise\.resolve\(\)/ *)
    {| pattern := Seq (lit "return") (Seq (Plus space) (lit "Promise.resolve()"));
       anchored := false;
       pattern_description := "Empty promise resolution" |};
    (* /catch\s*\([^)]*\)\s*{\s*}/ *)
    {| pattern :=
         Seq (lit "catch") (Seq (Star space) (Seq (lit "(")
           (Seq (Star (Chr (λ c, negb (Ascii.eqb c ")")))) (Seq (lit ")")
             (Seq (Star space) (Seq (lit "{") (Seq (Star space) (lit "}"))))))));
       anchored := false;
       pattern_description := "Empty catch block" |} ].

(** [pattern.test(line)] *)
Definition pattern_test (p : IncompletePattern) (line : string) : bool :=
  if anchored p then RequirementsFacts.test_at_start (pattern p) line
  else IntentAnalyzer.test (pattern p) line.

(** The gaps of one line, one per matching pattern, in table order. *)
Definition incomplete_of_line (file : string) (index : nat) (line : string)
  : list Gap :=
  concat
    (map (λ p,
            if pattern_test p line then
              [ {| gap_type := gap_incomplete;
                   gap_file := file;
                   gap_line := Some (index + 1)%nat;
                   gap_description := pattern_description p;
                   gap_priority := Some prio_high |} ]
            else [])
         incompletePatterns).

(** The whole-file gap for a very short file. *)
Definition short_file_gap (file : string) : Gap :=
  {| gap_type := gap_incomplete;
     gap_file := file;
     gap_line := None;
     gap_description := "File seems incomplete (very short)";
     gap_priority := Some prio_medium |}.

Definition findIncompleteImplementations (file : string) (lines : list string)
  : list Gap :=
  (concat (imap (incomplete_of_line file) lines)
   ++ (if (length lines <? 10)%nat && negb (Js.includes "index" file)
       then [short_file_gap file] else []))%list.

Definition has_no_line (g : Gap) : bool :=
  match gap_line g with None => true | Some _ => false end.

Example findIncompleteImplementations_sample :
  map (λ g, (gap_line g, gap_description g))
    (findIncompleteImplementations "src/api.ts"
       ["export async function load() {";
        "  // ...";
        "  try { return Promise.resolve() } catch (e) { }";
        "  console.warn('todo: wire up');";
        "}"])
  = [ (Some 2%nat, "Ellipsis comment indicating more code needed");
      (Some 3%nat, "Empty promise resolution");
      (Some 3%nat, "Empty catch block");
      (Some 4%nat, "Console log with TODO");
      (None, "File seems incomplete (very short)") ].
Proof. vm_compute. reflexivity. Qed.

Lemma incomplete_of_line_shape file index line gap :
  gap ∈ incomplete_of_line file index line →
  gap_type gap = gap_incomplete ∧ gap_file gap = file
  ∧ gap_line gap = Some (index + 1)%nat ∧ gap_priority gap = Some prio_high.
Proof.
  unfold incomplete_of_line. intros Hin.
  apply list_elem_of_In, in_concat in Hin as (gs & Hgs & Hgap).
  apply in_map_iff in Hgs as (p & <- & _).
  destruct (pattern_test p line); [|contradiction].
  destruct Hgap as [<-|[]]. by repeat split.
Qed.

Lemma line_gaps_numbered file lines gap :
  gap ∈ concat (imap (incomplete_of_line file) lines) →
  gap_type gap = gap_incomplete ∧ gap_file gap = file
  ∧ gap_priority gap = Some prio_high
  ∧ ∃ n, gap_line gap = Some n ∧ (1 ≤ n ≤ length lines)%nat.
Proof.
  intros Hin. apply list_elem_of_In, in_concat in Hin as (gs & Hgs & Hgap).
  apply list_elem_of_In in Hgs, Hgap.
  apply elem_of_lookup_imap in Hgs as (i & line & -> & Hi).
  apply incomplete_of_line_shape in Hgap as (Ht & Hf & Hl & Hp).
  repeat split; try done. exists (i + 1)%nat. split; [exact Hl|].
  apply lookup_lt_Some in Hi. lia.
Qed.

Lemma filter_none_line_gaps l :
  (∀ g, g ∈ l → ∃ n, gap_line g = Some n) → List.filter has_no_line l = [].
Proof.
  induction l as [|g l IH]; intros H; [reflexivity|]. simpl.
  destruct (H g (list_elem_of_here _ _)) as [n Hn].
  unfold has_no_line at 1. rewrite Hn. apply IH.
  intros g' Hg'. by apply H, list_elem_of_further.
Qed.

(** Every gap is an "incomplete" gap of the given file. The gaps found on
    lines carry a 1-based line number inside the file and priority high.
    The only gap without a line number is the whole-file one, reported
    once, last, exactly when the file has fewer than 10 lines and its path
    does not contain "index". *)
Theorem findIncompleteImplementations_gaps :
  ∀ (file : string) (lines : list string),
    let gaps := findIncompleteImplementations file lines in
    (∀ gap, gap ∈ gaps →
       gap_type gap = gap_incomplete ∧ gap_file gap = file
       ∧ ∀ n, gap_line gap = Some n →
           (1 ≤ n ≤ length lines)%nat ∧ gap_priority gap = Some prio_high)
    ∧ List.filter has_no_line gaps
      = (if (length lines <? 10)%nat && negb (Js.includes "index" file)
         then [short_file_gap file] else [])
    ∧ (∃ numbered,
         gaps = (numbered ++ List.filter has_no_line gaps)%list).
Proof.
  intros file lines gaps. subst gaps. unfold findIncompleteImplementations.
  set (numbered := concat (imap (incomplete_of_line file) lines)).
  set (short := if (length lines <? 10)%nat && negb (Js.includes "index" file)
                then [short_file_gap file] else []).
  assert (Hnum : List.filter has_no_line numbered = []).
  { apply filter_none_line_gaps. intros g Hg.
    apply line_gaps_numbered in Hg as (_ & _ & _ & n & Hn & _). eauto. }
  assert (Hshort : List.filter has_no_line short = short).
  { subst short. by destruct (_ && _). }
  split; [|split].
  - intros gap Hin. apply elem_of_app in Hin as [Hin|Hin].
    + apply line_gaps_numbered in Hin as (Ht & Hf & Hp & n & Hn & Hrange).
      split; [exact Ht|]. split; [exact Hf|].
      intros m Hm. rewrite Hn in Hm. injection Hm as <-. by split.
    + subst short. destruct (_ && _); [|by apply elem_of_nil in Hin].
      apply list_elem_of_singleton in Hin. subst gap.
      split; [reflexivity|]. split; [reflexivity|].
      intros n Hn. discriminate Hn.
  - by rewrite List.filter_app, Hnum, Hshort.
  - exists numbered. by rewrite List.filter_app, Hnum, Hshort.
Qed.

End IncompleteFacts.

(** ** Recommendation engine: what the rules amount to *)

Module RecommenderFacts.

Import Recommender.

Local Open Scope string_scope.

Definition accessibility_rule : string :=
  "improve-accessibility: Ensure WCAG 2.1 AA compliance".
Definition ci_cd_rule : string :=
  "add-ci-cd: Set up continuous integration and deployment".
Definition loading_rule : string :=
  "add-loading-states: Add loading indicators for async operations".
Definition add_tests_rule : string :=
  "add-test-coverage: Add unit and integration tests".
Definition improve_tests_rule : string :=
  "improve-test-coverage: Increase test coverage to at least 80%".
Definition migrate_rule : string :=
  "migrate-to-biokit-design-system: Replace current UI components with biokit-design-system".

(** [metrics && metrics.testCoverage < 60] *)
Definition low_coverage (qa : CodeQuality) : bool :=
  match metrics qa with
  | Some m => (testCoverage m <? 60)%Z
  | None => false
  end.

Lemma indexOf_lookup (l : list string) i x :
  NoDup l → l !! i = Some x → indexOf x l = Z.of_nat i.
Proof.
  revert i. induction l as [|y l IH]; intros i Hnd Hi; [done|].
  apply NoDup_cons in Hnd as [Hy Hnd]. simpl.
  destruct i as [|i]; simpl in Hi.
  - injection Hi as ->. by rewrite String.eqb_refl.
  - assert (y ≠ x) as Hne.
    { intros ->. apply Hy. by eapply list_elem_of_lookup_2. }
    apply String.eqb_neq in Hne. rewrite Hne, (IH i Hnd Hi).
    destruct (Z.eqb_spec (Z.of_nat i) (-1)); lia.
Qed.

Lemma filter_all {A} (p : A → bool) (l : list A) :
  (∀ x, x ∈ l → p x = true) → List.filter p l = l.
Proof.
  induction l as [|x l IH]; intros H; [reflexivity|]. simpl.
  rewrite (H x (list_elem_of_here _ _)). f_equal. apply IH.
  intros y Hy. by apply H, list_elem_of_further.
Qed.

(** On a list without repeats the closing filter keeps everything. *)
Lemma filter_first_index_NoDup l : NoDup l → filter_first_index l = l.
Proof.
  intros Hnd. unfold filter_first_index. rewrite filter_all.
  - pose proof (imap_pair_snd id l) as Hsnd. simpl in Hsnd. exact Hsnd.
  - intros [i x] Hin. apply elem_of_lookup_imap in Hin as (j & y & Heq & Hj).
    injection Heq as -> ->. apply Z.eqb_eq. by apply indexOf_lookup.
Qed.

Lemma apply_rules_NoDup ca qa gaps : NoDup (apply_rules ca qa gaps).
Proof.
  eapply sublist_NoDup; [|apply apply_rules_sublist].
  eapply NoDup_fmap_1. apply rule_table_keys_NoDup.
Qed.

Lemma elem_of_push_if x cond rule l :
  x ∈ push_if cond rule l ↔ (cond = true ∧ x = rule) ∨ x ∈ l.
Proof.
  unfold push_if. destruct cond.
  - rewrite elem_of_app, list_elem_of_singleton. tauto.
  - split; [by right | by intros [[? _]|?]].
Qed.

Lemma length_push_if cond rule l :
  length (push_if cond rule l) = (length l + Nat.b2n cond)%nat.
Proof.
  unfold push_if. destruct cond; simpl; [|lia].
  rewrite length_app. simpl. lia.
Qed.

(** Membership of a rule text in the list pushed by the rules. *)
Ltac rule_membership :=
  unfold apply_rules;
  repeat match goal with
         | |- context [if ?b then push_if _ _ _ else push_if _ _ _] =>
             destruct b eqn:?
         end;
  rewrite ?elem_of_push_if, ?elem_of_nil.

(** With both analyses present, what is returned is what the rules pushed. *)
Lemma recommend_is_apply_rules ca qa gaps :
  recommendImprovements (Some ca) (Some qa) gaps = apply_rules ca qa gaps.
Proof.
  unfold recommendImprovements. apply filter_first_index_NoDup, apply_rules_NoDup.
Qed.

Lemma unconditional_rules_pushed ca qa gaps :
  accessibility_rule ∈ apply_rules ca qa gaps
  ∧ ci_cd_rule ∈ apply_rules ca qa gaps
  ∧ loading_rule ∈ apply_rules ca qa gaps.
Proof.
  unfold accessibility_rule, ci_cd_rule, loading_rule.
  split; [|split]; rule_membership; tauto.
Qed.

Lemma migrate_rule_pushed ca qa gaps :
  migrate_rule ∈ apply_rules ca qa gaps ↔ designSystem qa ≠ ds_biokit.
Proof.
  unfold migrate_rule. rule_membership;
    destruct (designSystem qa); simpl;
    intuition (discriminate || congruence).
Qed.

(** The closing [indexOf] filter of [recommendImprovements] never removes
    anything: no two rules push the same text, so what is returned is
    what the rules pushed, without repeats. *)
Theorem recommendImprovements_filter_keeps_all :
  ∀ (codeAnalysis : CodebaseAnalysis) (qualityAnalysis : CodeQuality)
    (gaps : list Gap),
    recommendImprovements (Some codeAnalysis) (Some qualityAnalysis) gaps
    = apply_rules codeAnalysis qualityAnalysis gaps
    ∧ NoDup (recommendImprovements (Some codeAnalysis) (Some qualityAnalysis)
               gaps).
Proof.
  intros ca qa gaps. rewrite recommend_is_apply_rules.
  split; [reflexivity | apply apply_rules_NoDup].
Qed.

(** With both analyses present the three unconditional recommendations
    are always returned, so the list has between 3 and 16 entries; the
    two test recommendations exclude each other. *)
Theorem recommendImprovements_always_present :
  ∀ (codeAnalysis : CodebaseAnalysis) (qualityAnalysis : CodeQuality)
    (gaps : list Gap),
    let result :=
      recommendImprovements (Some codeAnalysis) (Some qualityAnalysis) gaps in
    accessibility_rule ∈ result ∧ ci_cd_rule ∈ result ∧ loading_rule ∈ result
    ∧ (3 ≤ length result ≤ 16)%nat
    ∧ (add_tests_rule ∈ result ↔ hasTests qualityAnalysis = false)
    ∧ (improve_tests_rule ∈ result
       ↔ hasTests qualityAnalysis = true ∧ low_coverage qualityAnalysis = true).
Proof.
  intros ca qa gaps result. subst result.
  rewrite recommend_is_apply_rules.
  destruct (unconditional_rules_pushed ca qa gaps) as (Ha & Hc & Hl).
  unfold add_tests_rule, improve_tests_rule, low_coverage.
  split; [exact Ha|split; [exact Hc|split; [exact Hl|split; [|split]]]].
  - unfold apply_rules.
    destruct (negb (hasTests qa)); rewrite !length_push_if; cbn [length Nat.b2n];
      repeat match goal with
             | |- context [Nat.b2n ?c] =>
                 let n := fresh "n" in
                 assert (Nat.b2n c ≤ 1)%nat by (destruct c; simpl; lia);
                 generalize dependent (Nat.b2n c); intros n ?
             end; lia.
  - rule_membership; destruct (hasTests qa); simpl in *;
      intuition (discriminate || congruence).
  - rule_membership; destruct (hasTests qa); simpl in *;
      intuition (discriminate || congruence).
Qed.

(** The migration to the in-house design system is recommended exactly
    when the detected design system is another one. *)
Theorem recommendImprovements_migrate_iff :
  ∀ (codeAnalysis : CodebaseAnalysis) (qualityAnalysis : CodeQuality)
    (gaps : list Gap),
    migrate_rule
      ∈ recommendImprovements (Some codeAnalysis) (Some qualityAnalysis) gaps
    ↔ designSystem qualityAnalysis ≠ ds_biokit.
Proof.
  intros ca qa gaps. rewrite recommend_is_apply_rules.
  apply migrate_rule_pushed.
Qed.

End RecommenderFacts.

(** ** The analysis pipeline as wired in analyzeRepository (index.ts) *)

Module Pipeline.

Local Open Scope string_scope.

Record RequirementsInfo := {
  prd : bool;
  userStories : bool;
  technicalSpecs : bool;
  mockups : bool;
  dataModels : bool
}.

(** What the four analyzers return when they are run on the clone. *)
Record AnalyzerOutputs := {
  analyzeCodebase : CodebaseAnalysis;
  analyzeRequirements : RequirementsInfo * list Requirements.ExtractedFeature;
  analyzeQuality : CodeQuality;
  detectGaps : list Gap
}.

Record RepoAnalysis := {
  type : RepoType;
  hasCode : bool;
  hasRequirements : bool;
  codeQuality : CodeQuality;
  requirements : RequirementsInfo;
  improvements : list string;
  extractedFeatures : option (list Requirements.ExtractedFeature)
}.

Definition default_quality : CodeQuality :=
  {| hasTests := false; quality_hasTypescript := false; designSystem := ds_none;
     quality_framework := "unknown"; packageManager := npm; metrics := None |}.

Definition default_requirements : RequirementsInfo :=
  {| prd := false; userStories := false; technicalSpecs := false;
     mockups := false; dataModels := false |}.

(** The body of [analyzeRepository] after cloning: [hasCode] and [hasDocs]
    are the results of [detectCode] and [detectDocumentation]; an analyzer
    is only run when its input exists. *)
Definition analyzeRepository (hasCode hasDocs : bool) (run : AnalyzerOutputs)
  : RepoAnalysis :=
  let codeAnalysis := if hasCode then Some (analyzeCodebase run) else None in
  let requirementsAnalysis :=
    if hasDocs then Some (analyzeRequirements run) else None in
  let qualityAnalysis := if hasCode then Some (analyzeQuality run) else None in
  let gaps := if hasCode then detectGaps run else [] in
  let repoType := Classifier.classifyRepository hasCode hasDocs codeAnalysis in
  let improvements :=
    Recommender.recommendImprovements codeAnalysis qualityAnalysis gaps in
  {| type := repoType;
     hasCode := hasCode;
     hasRequirements := hasDocs;
     codeQuality := default default_quality qualityAnalysis;
     requirements := default default_requirements (fst <$> requirementsAnalysis);
     improvements := improvements;
     extractedFeatures := snd <$> requirementsAnalysis |}.

(** [analyzeQuality] of quality.ts, from what its detectors see. *)
Definition assemble_quality (hasTypescript hasTests config_js config_ts : bool)
    (packageJson : Detectors.PackageManifest) (packageManager : PackageManager)
    (metrics : option Metrics) : CodeQuality :=
  {| hasTests := hasTests;
     quality_hasTypescript := hasTypescript;
     designSystem := Detectors.detectDesignSystem config_js config_ts packageJson;
     quality_framework := Detectors.detectFramework packageJson;
     packageManager := packageManager;
     metrics := metrics |}.

(** A repository without code is requirements-only, gets no
    recommendation and the default quality profile, whatever the
    analyzers would have reported. *)
Theorem analyzeRepository_without_code :
  ∀ (hasDocs : bool) (run : AnalyzerOutputs),
    let analysis := analyzeRepository false hasDocs run in
    type analysis = requirements_only
    ∧ improvements analysis = []
    ∧ codeQuality analysis = default_quality.
Proof. intros [] run; repeat split. Qed.


(** A project that depends on the in-house design system, in either
    dependency table, is never told to migrate to it, whatever other UI
    kits it also depends on. *)
Theorem biokit_project_not_told_to_migrate :
  ∀ (codeAnalysis : CodebaseAnalysis) (gaps : list Gap)
    (hasTypescript hasTests config_js config_ts : bool)
    (packageJson : Detectors.PackageManifest) (packageManager : PackageManager)
    (metrics : option Metrics),
    Detectors.has (Detectors.merged packageJson) "biokit-design-system" = true
    ∨ Detectors.has (Detectors.merged packageJson) "@biokit/design-system" = true →
    Forall (λ improvement, improvement ≠ RecommenderFacts.migrate_rule)
      (Recommender.recommendImprovements (Some codeAnalysis)
         (Some (assemble_quality hasTypescript hasTests config_js config_ts
                  packageJson packageManager metrics))
         gaps).
Proof.
  intros ca gaps ts tests cjs cts pj pm m Hbio.
  apply Forall_forall. intros improvement Hin ->. revert Hin.
  rewrite RecommenderFacts.recommend_is_apply_rules,
    RecommenderFacts.migrate_rule_pushed.
  cbn [designSystem assemble_quality]. unfold Detectors.detectDesignSystem.
  intros Hne. apply Hne.
  destruct Hbio as [-> | ->]; [reflexivity|]. by rewrite orb_true_r.
Qed.

Definition biokit_manifest : Detectors.PackageManifest :=
  {| Detectors.dependencies :=
       <["antd" := "5.0.0"]> (<["@biokit/design-system" := "1.2.0"]> ∅);
     Detectors.devDependencies := <["tailwindcss" := "3.4.0"]> ∅ |}.

Definition bare_codebase : CodebaseAnalysis :=
  {| framework := "react"; hasTypescript := true; components := [];
     pages := []; apis := []; styles := []; tests := [];
     entryPoint := None; packageJson := None |}.

Lemma biokit_project_not_told_to_migrate_witness :
  Forall (λ improvement, improvement ≠ RecommenderFacts.migrate_rule)
    (Recommender.recommendImprovements (Some bare_codebase)
       (Some (assemble_quality true true true false biokit_manifest npm None))
       []).
Proof.
  apply (biokit_project_not_told_to_migrate bare_codebase [] true true true
           false biokit_manifest npm None).
  right. vm_compute. reflexivity.
Defined.

End Pipeline.

(** ** Building the dependency graph (DependencyAnalyzer.buildGraph) *)

Module GraphBuild.

Import DependencyAnalyzer ContextSelector.

Section Build.

(** The import scanner, which the pattern leaves abstract. *)
Variable extractImports : string → list string.

(** [graph.set(file.path, new Set(imports))] for every file in turn. *)
Definition buildGraph (files : list FileManifest) : DependencyGraph :=
  foldl (λ graph f,
           <[path f := IntentAnalyzer.unique (extractImports (content f))]> graph)
        ∅ files.

Lemma buildGraph_acc_lookup files (graph : DependencyGraph) p :
  foldl (λ graph f,
           <[path f := IntentAnalyzer.unique (extractImports (content f))]> graph)
        graph files !! p = None
  ↔ graph !! p = None ∧ p ∉ map path files.
Proof.
  revert graph. induction files as [|f files IH]; intros graph; simpl.
  - rewrite elem_of_nil. tauto.
  - rewrite IH, lookup_insert_None, elem_of_cons. split.
    + intros [[Hg Hne] Hp]. split; [exact Hg|]. intros [->|?]; [done | auto].
    + intros [Hg Hp]. split; [split; [exact Hg|] |]; intros ?; apply Hp; auto.
Qed.

Lemma buildGraph_lookup_None files p :
  buildGraph files !! p = None ↔ p ∉ map path files.
Proof.
  unfold buildGraph. rewrite buildGraph_acc_lookup, lookup_empty. tauto.
Qed.

(** A path that is not in the manifest has no entry in the graph, and
    expanding it returns the path alone, whatever the depth. *)
Theorem buildGraph_unknown_target :
  ∀ (files : list FileManifest) (target : string) (depth extra : nat),
    target ∉ map path files →
    buildGraph files !! target = None
    ∧ findRelatedFiles (bfs_fuel (buildGraph files) depth + extra) target
        (buildGraph files) depth
      = Some [target].
Proof.
  intros files target depth extra Hout.
  assert (Hnone : buildGraph files !! target = None)
    by by apply buildGraph_lookup_None.
  split; [exact Hnone|].
  destruct (ReachFacts.findRelatedFiles_result (buildGraph files) target depth extra)
    as (r & -> & Hnd & Hr).
  f_equal. apply ReachFacts.singleton_by_members; [exact Hnd|].
  intros v. rewrite Hr. split.
  - intros (k & _ & Hv). destruct k as [|k]; [exact Hv|]. exfalso.
    clear -Hnone Hv. revert v Hv. induction k as [|k IH]; intros v (u & Hu & He).
    + simpl in Hu. subst u. destruct He as (deps & Hg & _). congruence.
    + exact (IH u Hu).
  - intros ->. exists 0. split; [lia | reflexivity].
Qed.

End Build.

Lemma buildGraph_unknown_target_witness :
  buildGraph (λ _, ["./b"%string]) corpus !! "README.md"%string = None
  ∧ findRelatedFiles
      (bfs_fuel (buildGraph (λ _, ["./b"%string]) corpus) 2 + 0)
      "README.md"%string (buildGraph (λ _, ["./b"%string]) corpus) 2
    = Some ["README.md"%string].
Proof.
  apply (buildGraph_unknown_target (λ _, ["./b"%string]) corpus
           "README.md"%string 2 0).
  vm_compute. intros Hin.
  repeat (apply elem_of_cons in Hin as [Heq|Hin]; [discriminate Heq|]).
  by apply elem_of_nil in Hin.
Defined.

End GraphBuild.

(** ** The coverage estimate without test files *)

Module CoverageFacts.

Import Quality.

(** Without test files the estimate is 0, also when there is no code file
    at all: the divisor is at least 1. *)
Theorem testCoverage_no_tests :
  ∀ codeFiles : N,
    (codeFiles ≤ max_array_length)%N →
    testCoverage 0%N codeFiles = Integer 0.
Proof.
  intros codeFiles Hc. unfold testCoverage.
  rewrite number_of_length_zero.
  assert (Hden : positive_finite (number_of_length (N.max codeFiles 1%N))).
  { apply number_of_length_positive. unfold max_array_length in *. lia. }
  destruct (number_of_length (N.max codeFiles 1)) as [| | |[] m e];
    try contradiction.
  reflexivity.
Qed.

Lemma testCoverage_no_tests_witness : testCoverage 0%N 0%N = Integer 0.
Proof. apply (testCoverage_no_tests 0%N). vm_compute. discriminate. Defined.

End CoverageFacts.

(** ** Gap detector: the whole scan (detectGaps and its other finders) *)

Module GapScan.

Import Regex IncompleteFacts.

Local Open Scope string_scope.

Definition newline : ascii := "010"%char.

(** [content.split('\n')] *)
Fixpoint split_lines (content : string) : list string :=
  match content with
  | EmptyString => [EmptyString]
  | String c content' =>
      if Ascii.eqb c newline then EmptyString :: split_lines content'
      else
        match split_lines content' with
        | line :: rest => String c line :: rest
        | [] => [String c EmptyString]
        end
  end.

(** [lines.join('\n')] *)
Fixpoint join_lines (lines : list string) : string :=
  match lines with
  | [] => EmptyString
  | line :: rest =>
      match rest with
      | [] => line
      | _ :: _ => line ++ String newline (join_lines rest)
      end
  end.

Fixpoint no_newline (s : string) : bool :=
  match s with
  | EmptyString => true
  | String c s' => negb (Ascii.eqb c newline) && no_newline s'
  end.

(** Patterns one after the other. *)
Fixpoint seqs (rs : list regex) : regex :=
  match rs with
  | [] => Eps
  | r :: rs => Seq r (seqs rs)
  end.

Definition word : regex := Chr is_word.

(** [\([^)]*\)] *)
Definition params : regex :=
  seqs [lit "("; Star (Chr (λ c, negb (Ascii.eqb c ")"))); lit ")"].

(** [{\s*}] *)
Definition empty_braces : regex := seqs [lit "{"; Star space; lit "}"].

(** The class of the opening square bracket and the opening brace. *)
Definition open_bracket : regex :=
  Chr (λ c, Ascii.eqb c "[" || Ascii.eqb c "{").

(** A pattern of the stub table, with whether it ends with [$]. *)
Record StubPattern := {
  stub_regex : regex;
  to_end : bool
}.

Definition stubPatterns : list StubPattern :=
  [ (* /function\s+\w+\s*\([^)]*\)\s*{\s*}/ *)
    {| stub_regex :=
         seqs [lit "function"; Plus space; Plus word; Star space; params;
               Star space; empty_braces];
       to_end := false |};
    (* /const\s+\w+\s*=\s*\([^)]*\)\s*=>\s*{\s*}/ *)
    {| stub_regex :=
         seqs [lit "const"; Plus space; Plus word; Star space; lit "=";
               Star space; params; Star space; lit "=>"; Star space;
               empty_braces];
       to_end := false |};
    (* /\w+\s*\([^)]*\)\s*{\s*throw\s+new\s+Error\([quote]Not implemented/ *)
    {| stub_regex :=
         seqs [Plus word; Star space; params; Star space; lit "{"; Star space;
               lit "throw"; Plus space; lit "new"; Plus space; lit "Error(";
               quote; lit "Not implemented"];
       to_end := false |};
    (* /return\s+null\s*;?\s*}\s*$/ *)
    {| stub_regex :=
         seqs [lit "return"; Plus space; lit "null"; Star space; Opt (lit ";");
               Star space; lit "}"; Star space];
       to_end := true |};
    (* /return\s+undefined\s*;?\s*}\s*$/ *)
    {| stub_regex :=
         seqs [lit "return"; Plus space; lit "undefined"; Star space;
               Opt (lit ";"); Star space; lit "}"; Star space];
       to_end := true |};
    (* /console\.(log|warn|error)\([quote]Not implemented/ *)
    {| stub_regex :=
         seqs [lit "console.";
               Group 1 (Alt (lit "log") (Alt (lit "warn") (lit "error")));
               lit "("; quote; lit "Not implemented"];
       to_end := false |} ].

(** The continuation of a pattern that ends with [$]: the match has to
    reach the end of the input. *)
Definition at_end : cont :=
  λ rest caps, match rest with EmptyString => Some caps | String _ _ => None end.

Fixpoint exec_to_end (r : regex) (s : string) : option captures :=
  match run r s [] at_end with
  | Some caps => Some caps
  | None =>
      match s with
      | EmptyString => None
      | String _ s' => exec_to_end r s'
      end
  end.

(** [pattern.test(input)] for a pattern of the stub table. *)
Definition stub_test (p : StubPattern) (input : string) : bool :=
  if to_end p then
    match exec_to_end (stub_regex p) input with Some _ => true | None => false end
  else IntentAnalyzer.test (stub_regex p) input.

Definition stub_gap (file : string) (index : nat) : Gap :=
  {| gap_type := gap_stub;
     gap_file := file;
     gap_line := Some (index + 1)%nat;
     gap_description := "Empty or stub function implementation";
     gap_priority := Some prio_high |}.

(** One pattern after the other; a pattern is looked up line by line only
    when it matches the file as a whole. *)
Definition findStubFunctions (file : string) (lines : list string) : list Gap :=
  let codeBlock := join_lines lines in
  concat
    (map (λ p,
            if stub_test p codeBlock then
              concat (imap (λ index line,
                              if stub_test p line then [stub_gap file index]
                              else [])
                           lines)
            else [])
         stubPatterns).

Definition mockPatterns : list regex :=
  [ (* /const\s+\w*mock\w*/i *)
    seqs [lit_ci "const"; Plus space; Star word; lit_ci "mock"; Star word];
    (* /const\s+\w*dummy\w*/i *)
    seqs [lit_ci "const"; Plus space; Star word; lit_ci "dummy"; Star word];
    (* /const\s+\w*fake\w*/i *)
    seqs [lit_ci "const"; Plus space; Star word; lit_ci "fake"; Star word];
    (* /const\s+\w*test\w*\s*=\s*[\[{]/i *)
    seqs [lit_ci "const"; Plus space; Star word; lit_ci "test"; Star word;
          Star space; lit_ci "="; Star space; open_bracket];
    (* /return\s+[\[{].*hardcoded/i *)
    seqs [lit_ci "return"; Plus space; open_bracket; Star (Chr is_dot);
          lit_ci "hardcoded"];
    (* /\/\/\s*Replace with real data/i *)
    seqs [lit_ci "//"; Star space; lit_ci "Replace with real data"];
    (* /\/\/\s*Mock data/i *)
    seqs [lit_ci "//"; Star space; lit_ci "Mock data"] ].

Definition mock_gap (file : string) (index : nat) : Gap :=
  {| gap_type := gap_mock;
     gap_file := file;
     gap_line := Some (index + 1)%nat;
     gap_description := "Mock or hardcoded data detected";
     gap_priority := Some prio_medium |}.

Definition findMockData (file : string) (lines : list string) : list Gap :=
  concat
    (imap (λ index line,
             concat
               (map (λ pattern,
                       if IntentAnalyzer.test pattern line
                       then [mock_gap file index] else [])
                    mockPatterns))
          lines).

Definition placeholderPatterns : list regex :=
  [ (* /Lorem\s+ipsum/i *)
    seqs [lit_ci "Lorem"; Plus space; lit_ci "ipsum"];
    (* /placeholder/i *)
    lit_ci "placeholder";
    (* /coming\s+soon/i *)
    seqs [lit_ci "coming"; Plus space; lit_ci "soon"];
    (* /under\s+construction/i *)
    seqs [lit_ci "under"; Plus space; lit_ci "construction"];
    (* /work\s+in\s+progress/i *)
    seqs [lit_ci "work"; Plus space; lit_ci "in"; Plus space; lit_ci "progress"];
    (* /\[?WIP\]?/ *)
    seqs [Opt (lit "["); lit "WIP"; Opt (lit "]")];
    (* /<p>Text<\/p>/ *)
    lit "<p>Text</p>";
    (* /<div>Content<\/div>/ *)
    lit "<div>Content</div>" ].

Definition placeholder_gap (file : string) (index : nat) : Gap :=
  {| gap_type := gap_placeholder;
     gap_file := file;
     gap_line := Some (index + 1)%nat;
     gap_description := "Placeholder content detected";
     gap_priority := Some prio_low |}.

Definition findPlaceholders (file : string) (lines : list string) : list Gap :=
  concat
    (imap (λ index line,
             concat
               (map (λ pattern,
                       if IntentAnalyzer.test pattern line
                       then [placeholder_gap file index] else [])
                    placeholderPatterns))
          lines).

(** The gaps of one code file, finder after finder. *)
Definition file_gaps (file content : string) : list Gap :=
  let lines := split_lines content in
  (Gaps.findTODOs file lines
   ++ findStubFunctions file lines
   ++ findMockData file lines
   ++ findPlaceholders file lines
   ++ findIncompleteImplementations file lines)%list.

(** [detectGaps] on the code files found, each with its content. *)
Definition detectGaps (codeFiles : list (string * string)) : list Gap :=
  concat (map (λ '(file, content), file_gaps file content) codeFiles).

(** The priorities a gap of a given type can carry. *)
Definition type_priorities (t : GapType) : list GapPriority :=
  match t with
  | gap_todo => [prio_high; prio_medium]
  | gap_stub => [prio_high]
  | gap_mock => [prio_medium]
  | gap_placeholder => [prio_low]
  | gap_incomplete => [prio_high; prio_medium]
  end.

Fixpoint newlines (s : string) : nat :=
  match s with
  | EmptyString => 0
  | String c s' => ((if Ascii.eqb c newline then 1 else 0) + newlines s')%nat
  end.

(** [linesOfCode] of calculateMetrics, from the contents of the code files. *)
Definition linesOfCode (contents : list string) : nat :=
  foldl (λ linesOfCode content, (linesOfCode + length (split_lines content))%nat)
        0%nat contents.

Example findStubFunctions_sample :
  map gap_line
    (findStubFunctions "a.ts"
       ["function load() {}";
        "const save = (x) => { }";
        "function pick() { return null; }"])
  = [Some 1%nat; Some 2%nat; Some 3%nat].
Proof. vm_compute. reflexivity. Qed.

(** A pattern that ends with [$] has to match at the end of the file
    before any line is looked at. *)
Example findStubFunctions_end_of_file :
  findStubFunctions "a.ts"
    ["function pick() { return null; }"; "function one() { return 1; }"]
  = [].
Proof. vm_compute. reflexivity. Qed.

Example findMockData_sample :
  map gap_line
    (findMockData "a.ts"
       ["const mockUsers = []"; "const n = 1"; "  // mock data below"])
  = [Some 1%nat; Some 3%nat].
Proof. vm_compute. reflexivity. Qed.

Example findPlaceholders_sample :
  map gap_line
    (findPlaceholders "a.tsx"
       ["<input placeholder='Lorem ipsum' />"; "<p>[WIP]</p>"; "<p>Text</p>"])
  = [Some 1%nat; Some 1%nat; Some 2%nat; Some 3%nat].
Proof. vm_compute. reflexivity. Qed.

Example split_lines_sample :
  split_lines (String "a" (String newline (String newline (String "b" (String newline "")))))
  = ["a"; ""; "b"; ""].
Proof. vm_compute. reflexivity. Qed.

(** *** Lines *)

Lemma split_lines_nonempty content : split_lines content ≠ [].
Proof.
  destruct content as [|c content]; [discriminate|]. simpl.
  destruct (Ascii.eqb c newline); [discriminate|].
  destruct (split_lines content); discriminate.
Qed.

Lemma join_lines_cons c line rest :
  join_lines (String c line :: rest) = String c (join_lines (line :: rest)).
Proof. destruct rest; reflexivity. Qed.

Lemma split_lines_length content :
  length (split_lines content) = S (newlines content).
Proof.
  induction content as [|c content IH]; [reflexivity|]. simpl.
  destruct (Ascii.eqb c newline); simpl; [by rewrite IH|].
  destruct (split_lines content) as [|line rest] eqn:E;
    [by apply split_lines_nonempty in E | exact IH].
Qed.

(** Splitting at the newlines and joining with newlines is the identity;
    no line contains a newline, and there is one line more than there are
    newlines, so also an empty file has one line. *)
Theorem split_lines_join :
  ∀ content : string,
    join_lines (split_lines content) = content
    ∧ Forall (λ line, no_newline line = true) (split_lines content)
    ∧ length (split_lines content) = S (newlines content).
Proof.
  intros content. split; [|split; [|apply split_lines_length]].
  - induction content as [|c content IH]; [reflexivity|]. cbn [split_lines].
    destruct (split_lines content) as [|line rest] eqn:E;
      [by apply split_lines_nonempty in E|].
    destruct (Ascii.eqb_spec c newline) as [->|Hc].
    + change (join_lines (EmptyString :: line :: rest))
        with (String newline (join_lines (line :: rest))).
      by rewrite IH.
    + rewrite join_lines_cons. by rewrite IH.
  - induction content as [|c content IH]; [by repeat constructor|]. simpl.
    destruct (Ascii.eqb c newline) eqn:Hc.
    + by constructor.
    + destruct (split_lines content) as [|line rest] eqn:E;
        [by apply split_lines_nonempty in E|].
      apply Forall_cons in IH as [Hline Hrest]. constructor; [|exact Hrest].
      simpl. by rewrite Hc, Hline.
Qed.

Lemma linesOfCode_acc contents n :
  foldl (λ linesOfCode content, (linesOfCode + length (split_lines content))%nat)
        n contents
  = (n + length contents + sum_list (newlines <$> contents))%nat.
Proof.
  revert n. induction contents as [|content contents IH]; intros n.
  - simpl. lia.
  - cbn [foldl]. rewrite IH, split_lines_length.
    rewrite fmap_cons. cbn [sum_list sum_list_with length]. unfold id. lia.
Qed.

(** The line count of calculateMetrics is the number of code files plus
    the number of newline characters in them: every file, also an empty
    one, counts at least one line. *)
Theorem linesOfCode_counts :
  ∀ contents : list string,
    linesOfCode contents
    = (length contents + sum_list (newlines <$> contents))%nat
    ∧ (length contents ≤ linesOfCode contents)%nat.
Proof.
  intros contents. unfold linesOfCode. rewrite linesOfCode_acc. lia.
Qed.

(** *** Shape of the gaps *)

Lemma elem_of_concat_imap {A B} (f : nat → A → list B) (l : list A) y :
  y ∈ concat (imap f l) ↔ ∃ i x, l !! i = Some x ∧ y ∈ f i x.
Proof.
  split.
  - intros Hin. apply list_elem_of_In, in_concat in Hin as (ys & Hys & Hy).
    apply list_elem_of_In in Hys, Hy.
    apply elem_of_lookup_imap in Hys as (i & x & -> & Hi). eauto.
  - intros (i & x & Hi & Hy). apply list_elem_of_In, in_concat.
    exists (f i x). split; apply list_elem_of_In; [|exact Hy].
    apply elem_of_lookup_imap. eauto.
Qed.

Lemma elem_of_concat_map {A B} (f : A → list B) (l : list A) y :
  y ∈ concat (map f l) ↔ ∃ x, x ∈ l ∧ y ∈ f x.
Proof.
  split.
  - intros Hin. apply list_elem_of_In, in_concat in Hin as (ys & Hys & Hy).
    apply in_map_iff in Hys as (x & <- & Hx).
    exists x. split; by apply list_elem_of_In.
  - intros (x & Hx & Hy). apply list_elem_of_In, in_concat.
    exists (f x). split; [|by apply list_elem_of_In].
    apply in_map_iff. exists x. split; [reflexivity | by apply list_elem_of_In].
Qed.

Lemma elem_of_if_singleton {A} (b : bool) (x y : A) :
  y ∈ (if b then [x] else []) ↔ b = true ∧ y = x.
Proof.
  destruct b.
  - rewrite list_elem_of_singleton. tauto.
  - rewrite elem_of_nil. split; [tauto | intros [H _]; discriminate H].
Qed.

Lemma findStubFunctions_elem file lines gap :
  gap ∈ findStubFunctions file lines
  ↔ ∃ p i line,
      p ∈ stubPatterns ∧ lines !! i = Some line
      ∧ stub_test p (join_lines lines) = true ∧ stub_test p line = true
      ∧ gap = stub_gap file i.
Proof.
  unfold findStubFunctions. cbv zeta. rewrite elem_of_concat_map. split.
  - intros (p & Hp & Hin).
    destruct (stub_test p (join_lines lines)) eqn:Hblock;
      [|by apply elem_of_nil in Hin].
    apply elem_of_concat_imap in Hin as (i & line & Hi & Hin).
    apply elem_of_if_singleton in Hin as [Hline ->].
    by exists p, i, line.
  - intros (p & i & line & Hp & Hi & Hblock & Hline & ->).
    exists p. split; [exact Hp|]. rewrite Hblock.
    apply elem_of_concat_imap. exists i, line. split; [exact Hi|].
    by apply elem_of_if_singleton.
Qed.

Lemma findMockData_elem file lines gap :
  gap ∈ findMockData file lines
  ↔ ∃ pattern i line,
      pattern ∈ mockPatterns ∧ lines !! i = Some line
      ∧ IntentAnalyzer.test pattern line = true ∧ gap = mock_gap file i.
Proof.
  unfold findMockData. rewrite elem_of_concat_imap. split.
  - intros (i & line & Hi & Hin).
    apply elem_of_concat_map in Hin as (p & Hp & Hin).
    apply elem_of_if_singleton in Hin as [Hline ->]. by exists p, i, line.
  - intros (p & i & line & Hp & Hi & Hline & ->). exists i, line.
    split; [exact Hi|]. apply elem_of_concat_map. exists p.
    split; [exact Hp|]. by apply elem_of_if_singleton.
Qed.

Lemma findPlaceholders_elem file lines gap :
  gap ∈ findPlaceholders file lines
  ↔ ∃ pattern i line,
      pattern ∈ placeholderPatterns ∧ lines !! i = Some line
      ∧ IntentAnalyzer.test pattern line = true ∧ gap = placeholder_gap file i.
Proof.
  unfold findPlaceholders. rewrite elem_of_concat_imap. split.
  - intros (i & line & Hi & Hin).
    apply elem_of_concat_map in Hin as (p & Hp & Hin).
    apply elem_of_if_singleton in Hin as [Hline ->]. by exists p, i, line.
  - intros (p & i & line & Hp & Hi & Hline & ->). exists i, line.
    split; [exact Hi|]. apply elem_of_concat_map. exists p.
    split; [exact Hp|]. by apply elem_of_if_singleton.
Qed.

Lemma lookup_line_number {A} (l : list A) i x :
  l !! i = Some x → (1 ≤ i + 1 ≤ length l)%nat.
Proof. intros Hi. apply lookup_lt_Some in Hi. lia. Qed.

(** What every gap of one file looks like. *)
Lemma file_gaps_shape file content gap :
  gap ∈ file_gaps file content →
  gap_file gap = file
  ∧ match gap_line gap with
    | Some n => (1 ≤ n ≤ length (split_lines content))%nat
    | None =>
        gap = short_file_gap file
        ∧ (length (split_lines content) < 10)%nat
        ∧ Js.includes "index" file = false
    end
  ∧ ∃ priority,
      gap_priority gap = Some priority
      ∧ priority ∈ type_priorities (gap_type gap).
Proof.
  unfold file_gaps. cbv zeta. set (lines := split_lines content).
  rewrite !elem_of_app. intros [Hin|[Hin|[Hin|[Hin|Hin]]]].
  - unfold Gaps.findTODOs in Hin.
    apply elem_of_concat_imap in Hin as (i & line & Hi & Hin).
    apply TodoFacts.todo_of_line_shape in Hin as (Ht & Hf & Hl & Hp).
    rewrite Hl, Ht. split; [exact Hf|]. split; [by eapply lookup_line_number|].
    destruct Hp as [Hp|Hp]; rewrite Hp; eexists; split; try reflexivity;
      simpl; rewrite !elem_of_cons; auto.
  - apply findStubFunctions_elem in Hin as (p & i & line & _ & Hi & _ & _ & ->).
    simpl. split; [reflexivity|]. split; [by eapply lookup_line_number|].
    eexists. split; [reflexivity|]. apply list_elem_of_here.
  - apply findMockData_elem in Hin as (p & i & line & _ & Hi & _ & ->).
    simpl. split; [reflexivity|]. split; [by eapply lookup_line_number|].
    eexists. split; [reflexivity|]. apply list_elem_of_here.
  - apply findPlaceholders_elem in Hin as (p & i & line & _ & Hi & _ & ->).
    simpl. split; [reflexivity|]. split; [by eapply lookup_line_number|].
    eexists. split; [reflexivity|]. apply list_elem_of_here.
  - unfold findIncompleteImplementations in Hin.
    apply elem_of_app in Hin as [Hin|Hin].
    + apply line_gaps_numbered in Hin as (Ht & Hf & Hp & n & Hn & Hrange).
      rewrite Hn, Ht, Hp. split; [exact Hf|]. split; [exact Hrange|].
      eexists. split; [reflexivity|]. apply list_elem_of_here.
    + destruct (length lines <? 10)%nat eqn:Hshort; cbn [andb] in Hin;
        [|by apply elem_of_nil in Hin].
      destruct (Js.includes "index" file) eqn:Hindex; cbn [negb] in Hin;
        [by apply elem_of_nil in Hin|].
      apply list_elem_of_singleton in Hin. subst gap. simpl.
      split; [reflexivity|]. apply Nat.ltb_lt in Hshort.
      split; [by repeat split|].
      eexists. split; [reflexivity|]. rewrite !elem_of_cons. auto.
Qed.

(** Every gap of [detectGaps] names one of the scanned files. A gap with a
    line number points inside that file; the only gap without one is the
    short-file gap of a file of fewer than 10 lines whose path does not
    contain "index". The priority is fixed by the type: high for stubs,
    medium for mock data, low for placeholders, high or medium otherwise. *)
Theorem detectGaps_gaps :
  ∀ (codeFiles : list (string * string)) (gap : Gap),
    gap ∈ detectGaps codeFiles →
    ∃ file content,
      (file, content) ∈ codeFiles
      ∧ gap_file gap = file
      ∧ match gap_line gap with
        | Some n => (1 ≤ n ≤ length (split_lines content))%nat
        | None =>
            gap = short_file_gap file
            ∧ (length (split_lines content) < 10)%nat
            ∧ Js.includes "index" file = false
        end
      ∧ ∃ priority,
          gap_priority gap = Some priority
          ∧ priority ∈ type_priorities (gap_type gap).
Proof.
  intros codeFiles gap Hin. unfold detectGaps in Hin.
  apply elem_of_concat_map in Hin as ([file content] & Hfile & Hin).
  exists file, content. split; [exact Hfile|]. by apply file_gaps_shape.
Qed.

Lemma detectGaps_gaps_witness :
  ∃ file content,
    (file, content) ∈ [("src/api.ts", "// TODO: wire up")]
    ∧ gap_file (short_file_gap "src/api.ts") = file
    ∧ match gap_line (short_file_gap "src/api.ts") with
      | Some n => (1 ≤ n ≤ length (split_lines content))%nat
      | None =>
          short_file_gap "src/api.ts" = short_file_gap file
          ∧ (length (split_lines content) < 10)%nat
          ∧ Js.includes "index" file = false
      end
    ∧ ∃ priority,
        gap_priority (short_file_gap "src/api.ts") = Some priority
        ∧ priority ∈ type_priorities (gap_type (short_file_gap "src/api.ts")).
Proof.
  apply (detectGaps_gaps [("src/api.ts", "// TODO: wire up")]
           (short_file_gap "src/api.ts")).
  vm_compute. apply list_elem_of_further, list_elem_of_here.
Defined.

(** *** Lines that are always flagged *)

Lemma exec_at_suffix r a s caps :
  run r s [] Gaps.accept = Some caps → IntentAnalyzer.test r (a ++ s) = true.
Proof.
  intros Hrun. unfold IntentAnalyzer.test.
  assert (∃ caps', exec r (a ++ s) = Some caps') as [caps' ->]; [|reflexivity].
  induction a as [|c a IH].
  - exists caps. change ("" ++ s) with s. unfold Gaps.accept in Hrun.
    destruct s; simpl; by rewrite Hrun.
  - rewrite Gaps.append_cons. cbn [exec].
    destruct (run r (String c (a ++ s)) [] _) as [caps'|]; eauto.
Qed.

Lemma run_seqs_cons r rs s caps k :
  run (seqs (r :: rs)) s caps k = run r s caps (λ s' caps', run (seqs rs) s' caps' k).
Proof. reflexivity. Qed.

Lemma lower_m_not_space c : Js.lower_ascii c = "m"%char → is_space c = false.
Proof.
  destruct c as [[] [] [] [] [] [] [] []]; vm_compute; congruence.
Qed.

(** A line with the word "placeholder", in any mix of upper and lower
    case and anywhere on the line, is reported as placeholder content. *)
Theorem findPlaceholders_flags_word :
  ∀ (file : string) (lines : list string) (i : nat) (a m b : string),
    lines !! i = Some (a ++ m ++ b) →
    Js.toLowerCase m = "placeholder" →
    placeholder_gap file i ∈ findPlaceholders file lines.
Proof.
  intros file lines i a m b Hi Hm. apply findPlaceholders_elem.
  exists (lit_ci "placeholder"), i, (a ++ m ++ b).
  split; [|split; [exact Hi|split; [|reflexivity]]].
  - unfold placeholderPatterns. apply list_elem_of_further, list_elem_of_here.
  - apply (exec_at_suffix _ a (m ++ b) []).
    rewrite Gaps.run_lit_ci_hit by (rewrite Hm; reflexivity). reflexivity.
Qed.

Lemma findPlaceholders_flags_word_witness :
  placeholder_gap "Form.tsx" 1
  ∈ findPlaceholders "Form.tsx"
      ["<form>"; "<input " ++ "placeHolder" ++ "='Name' />"; "</form>"].
Proof.
  apply (findPlaceholders_flags_word "Form.tsx"
           ["<form>"; "<input " ++ "placeHolder" ++ "='Name' />"; "</form>"]
           1 "<input " "placeHolder" "='Name' />"); reflexivity.
Defined.

Lemma mock_comment_matches a w m b :
  Gaps.all_space w = true →
  Js.toLowerCase m = "mock data" →
  IntentAnalyzer.test (seqs [lit_ci "//"; Star space; lit_ci "Mock data"])
    (a ++ "//" ++ w ++ m ++ b) = true.
Proof.
  intros Hw Hm. apply (exec_at_suffix _ a _ []).
  rewrite run_seqs_cons, Gaps.run_lit_ci_hit by reflexivity.
  rewrite run_seqs_cons. unfold space. cbn [run].
  rewrite Gaps.star_space_greedy; [|exact Hw| |lia].
  - apply Gaps.greedy_back_hit. rewrite run_seqs_cons.
    rewrite Gaps.run_lit_ci_hit by (rewrite Hm; reflexivity). reflexivity.
  - apply Gaps.toLowerCase_cons_inv in Hm as (c & m' & -> & Hc & _).
    rewrite Gaps.append_cons. by apply lower_m_not_space.
Qed.

Definition replace_mock_rule : string :=
  "replace-mock-data: Replace mock data with real API integrations".
Definition implement_stubs_rule : string :=
  "implement-stubs: Complete stub function implementations".
Definition complete_todos_rule : string :=
  "complete-todos: Address TODO comments and incomplete implementations".

Lemma filter_length_pos {A} (p : A → bool) (l : list A) :
  (0 <? length (List.filter p l))%nat = true ↔ ∃ x, x ∈ l ∧ p x = true.
Proof.
  rewrite Nat.ltb_lt. induction l as [|x l IH]; simpl.
  - split; [lia | intros (x & Hx & _); by apply elem_of_nil in Hx].
  - destruct (p x) eqn:Hpx; simpl.
    + split; [|lia]. intros _. exists x. split; [apply list_elem_of_here | exact Hpx].
    + rewrite IH. split.
      * intros (y & Hy & Hpy). exists y. split; [by apply list_elem_of_further | exact Hpy].
      * intros (y & Hy & Hpy). apply elem_of_cons in Hy as [->|Hy]; [congruence|eauto].
Qed.

Lemma GapType_eqb_eq a b : GapType_eqb a b = true ↔ a = b.
Proof. destruct a, b; simpl; split; congruence. Qed.

Lemma gap_rules_pushed ca qa gaps :
  (replace_mock_rule ∈ Recommender.apply_rules ca qa gaps
   ↔ ∃ g, g ∈ gaps ∧ gap_type g = gap_mock)
  ∧ (implement_stubs_rule ∈ Recommender.apply_rules ca qa gaps
     ↔ ∃ g, g ∈ gaps ∧ gap_type g = gap_stub)
  ∧ (complete_todos_rule ∈ Recommender.apply_rules ca qa gaps
     ↔ (10 < length gaps)%nat).
Proof.
  assert (Htype : ∀ t,
    (∃ g, g ∈ gaps ∧ gap_type g = t)
    ↔ (0 <? length (List.filter (λ g, GapType_eqb (gap_type g) t) gaps))%nat
      = true).
  { intros t. rewrite filter_length_pos.
    split; intros (g & Hg & Ht); exists g; (split; [exact Hg|]);
      by apply GapType_eqb_eq. }
  rewrite !Htype, <- Nat.ltb_lt.
  unfold replace_mock_rule, implement_stubs_rule, complete_todos_rule.
  split; [|split]; RecommenderFacts.rule_membership;
    intuition (discriminate || congruence).
Qed.

(** The recommendations driven by the gaps: mock data is to be replaced
    exactly when some gap is a mock gap, stubs are to be implemented
    exactly when some gap is a stub gap, and the TODO recommendation
    appears exactly when there are more than 10 gaps of any type. *)
Theorem recommendImprovements_gap_rules :
  ∀ (codeAnalysis : CodebaseAnalysis) (qualityAnalysis : CodeQuality)
    (gaps : list Gap),
    let result :=
      Recommender.recommendImprovements (Some codeAnalysis)
        (Some qualityAnalysis) gaps in
    (replace_mock_rule ∈ result ↔ ∃ g, g ∈ gaps ∧ gap_type g = gap_mock)
    ∧ (implement_stubs_rule ∈ result ↔ ∃ g, g ∈ gaps ∧ gap_type g = gap_stub)
    ∧ (complete_todos_rule ∈ result ↔ (10 < length gaps)%nat).
Proof.
  intros ca qa gaps result. subst result.
  rewrite RecommenderFacts.recommend_is_apply_rules. apply gap_rules_pushed.
Qed.

(** From a file to the recommendation: when a scanned file has a line
    with a comment that starts with "Mock data" (any case, any spaces
    after the slashes), the scan reports a mock gap on that line and the
    replacement of mock data is recommended. *)
Theorem mock_comment_recommended :
  ∀ (codeFiles : list (string * string)) (j i : nat) (file content : string)
    (a w m b : string)
    (codeAnalysis : CodebaseAnalysis) (qualityAnalysis : CodeQuality),
    codeFiles !! j = Some (file, content) →
    split_lines content !! i = Some (a ++ "//" ++ w ++ m ++ b) →
    Gaps.all_space w = true →
    Js.toLowerCase m = "mock data" →
    mock_gap file i ∈ detectGaps codeFiles
    ∧ replace_mock_rule
      ∈ Recommender.recommendImprovements (Some codeAnalysis)
          (Some qualityAnalysis) (detectGaps codeFiles).
Proof.
  intros codeFiles j i file content a w m b ca qa Hj Hi Hw Hm.
  assert (Hgap : mock_gap file i ∈ detectGaps codeFiles).
  { unfold detectGaps. apply elem_of_concat_map. exists (file, content).
    split; [by eapply list_elem_of_lookup_2|].
    unfold file_gaps. cbv zeta. rewrite !elem_of_app. right. right. left.
    apply findMockData_elem.
    exists (seqs [lit_ci "//"; Star space; lit_ci "Mock data"]), i,
      (a ++ "//" ++ w ++ m ++ b).
    split; [|split; [exact Hi|split; [|reflexivity]]].
    - unfold mockPatterns. rewrite !elem_of_cons. auto 10.
    - by apply mock_comment_matches. }
  split; [exact Hgap|].
  rewrite RecommenderFacts.recommend_is_apply_rules.
  apply gap_rules_pushed. by exists (mock_gap file i).
Qed.

Lemma mock_comment_recommended_witness :
  mock_gap "src/users.ts" 1
  ∈ detectGaps [("src/users.ts",
                 "export const users = [" ++ String newline "  // MOCK data for now")]
  ∧ replace_mock_rule
    ∈ Recommender.recommendImprovements (Some Pipeline.bare_codebase)
        (Some Recommender.plain_quality)
        (detectGaps [("src/users.ts",
                      "export const users = [" ++ String newline "  // MOCK data for now")]).
Proof.
  apply (mock_comment_recommended
           [("src/users.ts",
             "export const users = [" ++ String newline "  // MOCK data for now")]
           0 1 "src/users.ts"
           ("export const users = [" ++ String newline "  // MOCK data for now")
           "  " " " "MOCK data" " for now");
    reflexivity.
Defined.

End GapScan.

(** ** What the generator does with an analysis (generator index.ts,
       cli generate.ts) *)

Module Preview.

Import Pipeline.

Local Open Scope string_scope.

Inductive FileAction := file_create | file_modify | file_delete.

Record PreviewInfo := {
  affectedFiles : list (string * FileAction);
  dependencies_add : list string;
  dependencies_remove : list string;
  dependencies_update : list string;
  configChanges : list string;
  estimatedTime : string
}.

Definition set_affectedFiles (v : list (string * FileAction)) (p : PreviewInfo)
  : PreviewInfo :=
  {| affectedFiles := v; dependencies_add := dependencies_add p;
     dependencies_remove := dependencies_remove p;
     dependencies_update := dependencies_update p;
     configChanges := configChanges p; estimatedTime := estimatedTime p |}.

Definition set_dependencies_add (v : list string) (p : PreviewInfo) : PreviewInfo :=
  {| affectedFiles := affectedFiles p; dependencies_add := v;
     dependencies_remove := dependencies_remove p;
     dependencies_update := dependencies_update p;
     configChanges := configChanges p; estimatedTime := estimatedTime p |}.

Definition set_dependencies_remove (v : list string) (p : PreviewInfo)
  : PreviewInfo :=
  {| affectedFiles := affectedFiles p; dependencies_add := dependencies_add p;
     dependencies_remove := v;
     dependencies_update := dependencies_update p;
     configChanges := configChanges p; estimatedTime := estimatedTime p |}.

Definition set_configChanges (v : list string) (p : PreviewInfo) : PreviewInfo :=
  {| affectedFiles := affectedFiles p; dependencies_add := dependencies_add p;
     dependencies_remove := dependencies_remove p;
     dependencies_update := dependencies_update p;
     configChanges := v; estimatedTime := estimatedTime p |}.

Definition set_estimatedTime (v : string) (p : PreviewInfo) : PreviewInfo :=
  {| affectedFiles := affectedFiles p; dependencies_add := dependencies_add p;
     dependencies_remove := dependencies_remove p;
     dependencies_update := dependencies_update p;
     configChanges := configChanges p; estimatedTime := v |}.

(** [imp.replace(/-/g, ' ')] *)
Fixpoint replace_hyphens (s : string) : string :=
  match s with
  | EmptyString => EmptyString
  | String c s' =>
      String (if Ascii.eqb c "-" then " "%char else c) (replace_hyphens s')
  end.

(** [analysis.codeQuality.components]: the quality profile has no such
    property, neither in types.ts nor in what analyzeQuality returns. *)
Definition quality_components (quality : CodeQuality) : option (list string) :=
  None.

Definition is_material_ui (d : DesignSystem) : bool :=
  match d with ds_material_ui => true | _ => false end.

Definition scratch_files : list (string * FileAction) :=
  [ ("package.json", file_create); ("tsconfig.json", file_create);
    ("next.config.js", file_create); ("tailwind.config.ts", file_create);
    (".env.example", file_create); ("app/layout.tsx", file_create);
    ("app/page.tsx", file_create) ].

Definition scratch_dependencies : list string :=
  [ "next@latest"; "react@latest"; "react-dom@latest"; "typescript";
    "tailwindcss"; "biokit-design-system" ].

Definition previewChanges (analysis : RepoAnalysis) : PreviewInfo :=
  let preview :=
    {| affectedFiles := []; dependencies_add := []; dependencies_remove := [];
       dependencies_update := []; configChanges := [];
       estimatedTime := "10-15 minutes" |} in
  (* Determine what files would be affected *)
  let preview :=
    match type analysis with
    | requirements_only =>
        (* Building from scratch *)
        let preview := set_affectedFiles scratch_files preview in
        let preview := set_dependencies_add scratch_dependencies preview in
        set_estimatedTime "15-20 minutes" preview
    | existing_app =>
        (* Enhancing existing app *)
        let preview :=
          if negb (Recommender.is_biokit (designSystem (codeQuality analysis)))
          then
            let preview :=
              set_affectedFiles
                (affectedFiles preview
                 ++ default []
                      (map (λ c, (c, file_modify))
                         <$> quality_components (codeQuality analysis)))%list
                preview in
            let preview :=
              set_dependencies_add
                (dependencies_add preview ++ ["biokit-design-system"])%list
                preview in
            (* Remove old design system *)
            if is_material_ui (designSystem (codeQuality analysis)) then
              set_dependencies_remove
                (dependencies_remove preview
                 ++ ["@mui/material"; "@emotion/react"])%list
                preview
            else preview
          else preview in
        let preview :=
          if negb (quality_hasTypescript (codeQuality analysis)) then
            let preview :=
              set_configChanges
                (configChanges preview ++ ["Add TypeScript configuration"])%list
                preview in
            set_dependencies_add
              (dependencies_add preview
               ++ ["typescript"; "@types/react"; "@types/node"])%list
              preview
          else preview in
        set_estimatedTime "20-30 minutes" preview
    | _ => preview
    end in
  (* Add improvements that would be applied *)
  if (0 <? length (improvements analysis))%nat then
    set_configChanges
      (configChanges preview
       ++ map (λ imp, ("Apply: " ++ replace_hyphens imp)%string) (improvements analysis))%list
      preview
  else preview.

(** The generation strategies of [generateApplication]. *)
Inductive Strategy :=
| buildFromScratch
| enhanceExistingApp
| completePartialImplementation
| applyHybridApproach.

(** The [switch] of [generateApplication] on the repository type. *)
Definition strategy (analysis : RepoAnalysis) : Strategy :=
  match type analysis with
  | requirements_only => buildFromScratch
  | existing_app => enhanceExistingApp
  | partial_implementation => completePartialImplementation
  | hybrid => applyHybridApproach
  end.

Inductive Mode := mode_auto | mode_build | mode_enhance.

(** Step 2 of [generateCommand]: the mode, once [auto] is resolved. *)
Definition generationMode (mode : Mode) (analysis : RepoAnalysis) : Mode :=
  match mode with
  | mode_auto => if hasCode analysis then mode_enhance else mode_build
  | _ => mode
  end.

Fixpoint no_hyphen (s : string) : bool :=
  match s with
  | EmptyString => true
  | String c s' => negb (Ascii.eqb c "-") && no_hyphen s'
  end.

Lemma replace_hyphens_spec s :
  no_hyphen (replace_hyphens s) = true
  ∧ String.length (replace_hyphens s) = String.length s.
Proof.
  induction s as [|c s [IH1 IH2]]; [done|]. simpl.
  rewrite IH1, IH2, andb_true_r. split; [|reflexivity].
  by destruct (Ascii.eqb_spec c "-") as [->|Hc]; [|destruct (Ascii.eqb_spec c "-")].
Qed.

Lemma type_requirements_only_iff hasCode hasDocs run :
  type (analyzeRepository hasCode hasDocs run) = requirements_only
  ↔ hasCode = false.
Proof.
  unfold analyzeRepository. cbn [type].
  destruct hasCode; [|by destruct hasDocs].
  split; [|discriminate]. unfold Classifier.classifyRepository.
  destruct hasDocs; cbn [negb andb]; [|discriminate].
  destruct (components (analyzeCodebase run)), (pages (analyzeCodebase run)),
    (tests (analyzeCodebase run)); simpl; try discriminate;
    destruct (5 <? _)%nat; discriminate.
Qed.

(** Files are listed only for a requirements-only repository, and then
    all with action create: for an existing app the list stays empty,
    since the quality profile carries no component list. The in-house
    design system is added for a requirements-only repository and for an
    existing app on another design system; packages are removed only for
    an existing app on Material-UI. *)
Theorem previewChanges_files_and_dependencies :
  ∀ analysis : RepoAnalysis,
    let preview := previewChanges analysis in
    affectedFiles preview
    = match type analysis with
      | requirements_only => scratch_files
      | _ => []
      end
    ∧ Forall (λ f, f.2 = file_create) (affectedFiles preview)
    ∧ ("biokit-design-system" ∈ dependencies_add preview
       ↔ type analysis = requirements_only
         ∨ (type analysis = existing_app
            ∧ designSystem (codeQuality analysis) ≠ ds_biokit))
    ∧ (dependencies_remove preview ≠ []
       ↔ type analysis = existing_app
         ∧ designSystem (codeQuality analysis) = ds_material_ui)
    ∧ dependencies_update preview = [].
Proof.
  intros analysis preview. subst preview. unfold previewChanges. cbv zeta.
  destruct (0 <? length (improvements analysis))%nat;
    destruct (type analysis);
    destruct (designSystem (codeQuality analysis));
    destruct (quality_hasTypescript (codeQuality analysis));
    cbn; (split; [reflexivity|]);
    (split; [unfold scratch_files; repeat constructor|]);
    unfold scratch_dependencies;
    rewrite ?elem_of_cons, ?elem_of_nil;
    repeat split; intros; try discriminate; try tauto;
    intuition (discriminate || congruence).
Qed.

(** The configuration changes are the TypeScript note, for an existing
    app without TypeScript, followed by one "Apply:" entry per
    improvement, in order; no entry contains a hyphen. *)
Theorem previewChanges_config_changes :
  ∀ analysis : RepoAnalysis,
    let preview := previewChanges analysis in
    configChanges preview
    = (match type analysis with
       | existing_app =>
           if quality_hasTypescript (codeQuality analysis) then []
           else ["Add TypeScript configuration"]
       | _ => []
       end
       ++ map (λ imp, ("Apply: " ++ replace_hyphens imp)%string) (improvements analysis))%list
    ∧ Forall (λ change, no_hyphen change = true) (configChanges preview).
Proof.
  intros analysis preview. subst preview.
  assert (Heq : configChanges (previewChanges analysis)
    = (match type analysis with
       | existing_app =>
           if quality_hasTypescript (codeQuality analysis) then []
           else ["Add TypeScript configuration"]
       | _ => []
       end
       ++ map (λ imp, ("Apply: " ++ replace_hyphens imp)%string)
            (improvements analysis))%list).
  { unfold previewChanges. cbv zeta.
    destruct (improvements analysis) as [|imp imps];
      destruct (type analysis);
      destruct (designSystem (codeQuality analysis));
      destruct (quality_hasTypescript (codeQuality analysis));
      reflexivity. }
  split; [exact Heq|]. rewrite Heq. apply Forall_app. split.
  - destruct (type analysis); try constructor.
    destruct (quality_hasTypescript (codeQuality analysis)); by repeat constructor.
  - apply Forall_forall. intros change Hin.
    apply list_elem_of_In, in_map_iff in Hin as (imp & <- & _).
    cbn. apply (replace_hyphens_spec imp).
Qed.



End Preview.
